(** * TTS API server: the WAV encoder and the /synthesize handler

    A shallow embedding of [server.js].  The file follows the source from
    top to bottom: the byte buffers of the runtime, [pcmToWav], the voice
    table [VOICE_CONFIG], [generateTTSWithTimeout] and the handler of
    [POST /synthesize].

    Conventions.
    - A [Buffer] is the list of its bytes.
    - JavaScript numbers that the code uses as sizes are integers; values
      are in [Z], offsets and lengths in [nat].
    - A string is the sequence of its bytes (UTF-8); the code only
      concatenates strings and searches ASCII substrings in them.
    - An exception is an [Error] object, of which only [message] is read.
      The runtime's own range errors carry their error code as text; the
      runtime's wording names the argument and the range it must lie in.
    - The body of a request is [undefined] when the JSON middleware parsed
      nothing, and otherwise the parsed JSON object of the documented
      interface: each of its three fields is absent or a string.  The
      fields of the upstream answer that the handler reads are likewise
      absent or of the documented type.
    - An awaited call resolves, rejects, or never settles; a function
      that awaits a call that never settles never completes.
    - Console output and the clock readings that only feed it are left
      out. *)

From Stdlib Require Import ZArith List String Ascii Bool Lia.
From Stdlib Require Import Strings.Byte.
Import ListNotations.

Local Open Scope string_scope.
Local Open Scope Z_scope.

(** ** Completions: a statement returns a value, throws, or (awaiting a
    promise that never settles) never completes *)

(** What a [throw] carries: an error object, or [undefined] (the value of
    a [let] that was never assigned). *)
Inductive Thrown : Type :=
| RangeError (message : string)
| TypeError (message : string)
| Error (message : string)
| ThrownUndefined.

Inductive Completion (A : Type) : Type :=
| Normal (value : A)
| Throw (error : Thrown)
| Pending.

Arguments Normal {A} value.
Arguments Throw {A} error.
Arguments Pending {A}.

Definition bindC {A B} (c : Completion A) (k : A -> Completion B) : Completion B :=
  match c with
  | Normal a => k a
  | Throw e => Throw e
  | Pending => Pending
  end.

Declare Scope completion_scope.
Delimit Scope completion_scope with completion.
Notation "x <- c ;; k" := (bindC c (fun x => k))
  (at level 61, c at next level, right associativity) : completion_scope.

(** [error.message]; reading a property of [undefined] is a [TypeError]. *)
Definition message (error : Thrown) : Completion string :=
  match error with
  | RangeError m | TypeError m | Error m => Normal m
  | ThrownUndefined =>
      Throw (TypeError "Cannot read properties of undefined (reading 'message')")
  end.

(** ** Bytes and buffers *)

Definition Buffer := list byte.

(** The byte a typed-array store keeps of an integer: its low eight bits. *)
Definition byte_of_Z (z : Z) : byte :=
  match Byte.of_N (Z.to_N (Z.land z 255)) with
  | Some b => b
  | None => x00
  end.

Definition Z_of_byte (b : byte) : Z := Z.of_N (Byte.to_N b).

Module Buffer.

(** [Buffer.alloc(size)]: [size] zero bytes. *)
Definition alloc (size : nat) : Buffer := repeat x00 size.

(** Storing [src] into [dst] from [offset] on; what does not fit is
    dropped and the length of [dst] never changes. *)
Fixpoint blit (dst : Buffer) (offset : nat) (src : list byte) : Buffer :=
  match dst with
  | [] => []
  | d :: dst' =>
      match offset with
      | S offset' => d :: blit dst' offset' src
      | O =>
          match src with
          | [] => d :: dst'
          | s :: src' => s :: blit dst' O src'
          end
      end
  end.

(** [buf.write(string, offset)]: the bytes of the string, stored from
    [offset]; an offset beyond the buffer is a [RangeError]. *)
Definition write (buf : Buffer) (s : string) (offset : nat) : Completion Buffer :=
  if (offset <=? List.length buf)%nat
  then Normal (blit buf offset (list_byte_of_string s))
  else Throw (RangeError "ERR_OUT_OF_RANGE: offset").

Definition le_bytes (width : nat) (value : Z) : list byte :=
  map (fun i => byte_of_Z (Z.shiftr value (8 * Z.of_nat i))) (seq 0 width).

(** [writeUIntNLE]: the value must be an unsigned [8*width]-bit integer
    and the field must lie inside the buffer, else [RangeError]. *)
Definition writeUIntLE (width : nat) (buf : Buffer) (value : Z) (offset : nat)
  : Completion Buffer :=
  if negb ((0 <=? value) && (value <=? 2 ^ (8 * Z.of_nat width) - 1))
  then Throw (RangeError "ERR_OUT_OF_RANGE: value")
  else if negb (offset + width <=? List.length buf)%nat
  then Throw (RangeError "ERR_OUT_OF_RANGE: offset")
  else Normal (blit buf offset (le_bytes width value)).

Definition writeUInt32LE := writeUIntLE 4.
Definition writeUInt16LE := writeUIntLE 2.

(** [source.copy(target, targetStart)]. *)
Definition copy (source target : Buffer) (targetStart : nat) : Buffer :=
  blit target targetStart source.

(** [buf.slice(start, end)] *)
Definition slice (buf : Buffer) (start stop : nat) : Buffer :=
  firstn (stop - start) (skipn start buf).

Fixpoint le_value (bs : list byte) : Z :=
  match bs with
  | [] => 0
  | b :: bs' => Z_of_byte b + 256 * le_value bs'
  end.

(** Reading back: [readUIntNLE(offset)]; [None] where the runtime throws
    for a field that is not inside the buffer. *)
Definition readUIntLE (width : nat) (buf : Buffer) (offset : nat) : option Z :=
  if (offset + width <=? List.length buf)%nat
  then Some (le_value (slice buf offset (offset + width)))
  else None.

Definition readUInt32LE := readUIntLE 4.
Definition readUInt16LE := readUIntLE 2.

End Buffer.

(** ** Base64 text

    [Buffer.from(text, 'base64')] and [buf.toString('base64')] belong to
    the runtime.  The development is parametric in them; [RFC4648] below
    is the codec used to run the definitions on concrete inputs. *)

Class Base64Codec : Type := {
  fromBase64 : string -> Buffer;
  toBase64 : Buffer -> string
}.

Module RFC4648.

Definition alphabet : string :=
  "ABCDEFGHIJKLMNOPQRSTUVWXYZabcdefghijklmnopqrstuvwxyz0123456789+/".

Definition digit (n : Z) : ascii :=
  match String.get (Z.to_nat n) alphabet with
  | Some c => c
  | None => "A"%char
  end.

Fixpoint index_from (i : Z) (c : ascii) (s : string) : option Z :=
  match s with
  | EmptyString => None
  | String c' s' => if Ascii.eqb c c' then Some i else index_from (i + 1) c s'
  end.

(** The value of a digit; the decoder also reads the two digits of the
    URL-safe alphabet. *)
Definition sextet (c : ascii) : option Z :=
  if Ascii.eqb c "-"%char then Some 62
  else if Ascii.eqb c "_"%char then Some 63
  else index_from 0 c alphabet.

Fixpoint encode (bs : Buffer) : string :=
  match bs with
  | [] => ""
  | [a] =>
      let n := Z.shiftl (Z_of_byte a) 16 in
      String (digit (Z.land (Z.shiftr n 18) 63))
        (String (digit (Z.land (Z.shiftr n 12) 63)) "==")
  | [a; b] =>
      let n := Z.lor (Z.shiftl (Z_of_byte a) 16) (Z.shiftl (Z_of_byte b) 8) in
      String (digit (Z.land (Z.shiftr n 18) 63))
        (String (digit (Z.land (Z.shiftr n 12) 63))
           (String (digit (Z.land (Z.shiftr n 6) 63)) "="))
  | a :: b :: c :: rest =>
      let n := Z.lor (Z.lor (Z.shiftl (Z_of_byte a) 16) (Z.shiftl (Z_of_byte b) 8))
                     (Z_of_byte c) in
      String (digit (Z.land (Z.shiftr n 18) 63))
        (String (digit (Z.land (Z.shiftr n 12) 63))
           (String (digit (Z.land (Z.shiftr n 6) 63))
              (String (digit (Z.land n 63)) (encode rest))))
  end.

(** Decoding reads the digits up to the padding and skips every other
    character. *)
Fixpoint sextets (s : string) : list Z :=
  match s with
  | EmptyString => []
  | String c s' =>
      if Ascii.eqb c "="%char then []
      else match sextet c with
           | Some v => v :: sextets s'
           | None => sextets s'
           end
  end.

Fixpoint bytes_of_sextets (vs : list Z) : Buffer :=
  match vs with
  | a :: b :: c :: d :: rest =>
      let n := Z.lor (Z.lor (Z.shiftl a 18) (Z.shiftl b 12)) (Z.lor (Z.shiftl c 6) d) in
      byte_of_Z (Z.shiftr n 16) :: byte_of_Z (Z.shiftr n 8) :: byte_of_Z n
        :: bytes_of_sextets rest
  | [a; b; c] =>
      let n := Z.lor (Z.lor (Z.shiftl a 18) (Z.shiftl b 12)) (Z.shiftl c 6) in
      [byte_of_Z (Z.shiftr n 16); byte_of_Z (Z.shiftr n 8)]
  | [a; b] =>
      let n := Z.lor (Z.shiftl a 18) (Z.shiftl b 12) in
      [byte_of_Z (Z.shiftr n 16)]
  | _ => []
  end.

Definition decode (s : string) : Buffer := bytes_of_sextets (sextets s).

#[export] Instance codec : Base64Codec :=
  {| fromBase64 := decode; toBase64 := encode |}.

End RFC4648.

(** ** [pcmToWav]: raw PCM (L16) to WAV

    Gemini TTS returns 24 kHz, 16-bit, mono PCM audio. *)

Definition headerSize : nat := 44.

Definition pcmToWavBuffer (pcmBuffer : Buffer) : Completion Buffer :=
  let sampleRate := 24000 in
  let numChannels := 1 in
  let bitsPerSample := 16 in
  let byteRate := sampleRate * numChannels * (bitsPerSample / 8) in
  let blockAlign := numChannels * (bitsPerSample / 8) in
  let dataSize := List.length pcmBuffer in
  let wavBuffer := Buffer.alloc (headerSize + dataSize) in
  (* RIFF header *)
  (wavBuffer <- Buffer.write wavBuffer "RIFF" 0 ;;
   wavBuffer <- Buffer.writeUInt32LE wavBuffer (Z.of_nat (headerSize + dataSize) - 8) 4 ;;
   wavBuffer <- Buffer.write wavBuffer "WAVE" 8 ;;
   (* fmt chunk *)
   wavBuffer <- Buffer.write wavBuffer "fmt " 12 ;;
   wavBuffer <- Buffer.writeUInt32LE wavBuffer 16 16 ;;
   wavBuffer <- Buffer.writeUInt16LE wavBuffer 1 20 ;;
   wavBuffer <- Buffer.writeUInt16LE wavBuffer numChannels 22 ;;
   wavBuffer <- Buffer.writeUInt32LE wavBuffer sampleRate 24 ;;
   wavBuffer <- Buffer.writeUInt32LE wavBuffer byteRate 28 ;;
   wavBuffer <- Buffer.writeUInt16LE wavBuffer blockAlign 32 ;;
   wavBuffer <- Buffer.writeUInt16LE wavBuffer bitsPerSample 34 ;;
   (* data chunk *)
   wavBuffer <- Buffer.write wavBuffer "data" 36 ;;
   wavBuffer <- Buffer.writeUInt32LE wavBuffer (Z.of_nat dataSize) 40 ;;
   (* Copy PCM data *)
   Normal (Buffer.copy pcmBuffer wavBuffer headerSize))%completion.

Definition pcmToWav {codec : Base64Codec} (pcmBase64 : string) : Completion string :=
  (let pcmBuffer := fromBase64 pcmBase64 in
   wavBuffer <- pcmToWavBuffer pcmBuffer ;;
   Normal (toBase64 wavBuffer))%completion.

(** ** Strings *)

(** [s.includes(sub)] *)
Fixpoint includes (s sub : string) : bool :=
  prefix sub s
  || match s with
     | EmptyString => false
     | String _ s' => includes s' sub
     end.

(** Truthiness of a value that is absent or a string: [!text], [a || b]. *)
Definition truthy (field : option string) : bool :=
  match field with
  | None => false
  | Some s => negb (String.eqb s "")
  end.

Fixpoint lookup {A} (key : string) (props : list (string * A)) : option A :=
  match props with
  | [] => None
  | (k, v) :: props' => if String.eqb k key then Some v else lookup key props'
  end.

(** ** The voice table *)

Definition VOICE_CONFIG : list (string * list (string * string)) :=
  [ ("es-latam", [ ("male", "Sulafat"); ("female", "Achernar"); ("neutral", "Aoede") ]);
    ("en", [ ("male", "Sulafat"); ("female", "Vindemiatrix"); ("neutral", "Enceladus") ]) ].

(** *** Property lookup on object literals

    [VOICE_CONFIG] and its two members are object literals: their
    prototype is [Object.prototype], so [obj[key]] also finds what they
    inherit.  The objects below are the ones such a lookup can reach, with
    the string-keyed properties ECMA-262 (2024, with Annex B) gives them. *)

Inductive Builtin : Type :=
| ObjectPrototype
| FunctionPrototype
| ObjectConstructor
| FunctionConstructor
| BuiltinFunction (name : string) (arity : Z).

Inductive JSValue : Type :=
| JSUndefined
| JSNull
| JSNumber (n : Z)
| JSString (s : string)
| JSBuiltin (b : Builtin).

(** An object a lookup in [VOICE_CONFIG] can return. *)
Inductive JSObject : Type :=
| Voices (voices : list (string * string))
| Global (b : Builtin).

Inductive Property : Type :=
| Data (value : JSValue)
| ProtoAccessor          (* get __proto__ *)
| ThrowTypeError.        (* the accessor of the restricted function properties *)

Definition method (key : string) (methods : list (string * Z)) : option Property :=
  match lookup key methods with
  | Some arity => Some (Data (JSBuiltin (BuiltinFunction key arity)))
  | None => None
  end.

Definition Object_prototype (key : string) : option Property :=
  if String.eqb key "constructor" then Some (Data (JSBuiltin ObjectConstructor))
  else if String.eqb key "__proto__" then Some ProtoAccessor
  else method key
    [ ("hasOwnProperty", 1); ("isPrototypeOf", 1); ("propertyIsEnumerable", 1);
      ("toLocaleString", 0); ("toString", 0); ("valueOf", 0);
      ("__defineGetter__", 2); ("__defineSetter__", 2);
      ("__lookupGetter__", 1); ("__lookupSetter__", 1) ].

Definition Function_prototype (key : string) : option Property :=
  if String.eqb key "length" then Some (Data (JSNumber 0))
  else if String.eqb key "name" then Some (Data (JSString ""))
  else if String.eqb key "constructor" then Some (Data (JSBuiltin FunctionConstructor))
  else if (String.eqb key "caller") || (String.eqb key "arguments") then Some ThrowTypeError
  else method key [ ("apply", 2); ("bind", 1); ("call", 1); ("toString", 0) ].

Definition Object_constructor (key : string) : option Property :=
  if String.eqb key "length" then Some (Data (JSNumber 1))
  else if String.eqb key "name" then Some (Data (JSString "Object"))
  else if String.eqb key "prototype" then Some (Data (JSBuiltin ObjectPrototype))
  else method key
    [ ("assign", 2); ("create", 2); ("defineProperties", 2); ("defineProperty", 3);
      ("entries", 1); ("freeze", 1); ("fromEntries", 1);
      ("getOwnPropertyDescriptor", 2); ("getOwnPropertyDescriptors", 1);
      ("getOwnPropertyNames", 1); ("getOwnPropertySymbols", 1);
      ("getPrototypeOf", 1); ("groupBy", 2); ("hasOwn", 2); ("is", 2);
      ("isExtensible", 1);
      ("isFrozen", 1); ("isSealed", 1); ("keys", 1); ("preventExtensions", 1);
      ("seal", 1); ("setPrototypeOf", 2); ("values", 1) ].

Definition Function_constructor (key : string) : option Property :=
  if String.eqb key "length" then Some (Data (JSNumber 1))
  else if String.eqb key "name" then Some (Data (JSString "Function"))
  else if String.eqb key "prototype" then Some (Data (JSBuiltin FunctionPrototype))
  else None.

Definition ownProperty (o : JSObject) (key : string) : option Property :=
  match o with
  | Voices voices =>
      match lookup key voices with
      | Some voice => Some (Data (JSString voice))
      | None => None
      end
  | Global ObjectPrototype => Object_prototype key
  | Global FunctionPrototype => Function_prototype key
  | Global ObjectConstructor => Object_constructor key
  | Global FunctionConstructor => Function_constructor key
  | Global (BuiltinFunction name arity) =>
      if String.eqb key "length" then Some (Data (JSNumber arity))
      else if String.eqb key "name" then Some (Data (JSString name))
      else None
  end.

(** [[Prototype]]; [None] is [null]. *)
Definition prototypeOf (o : JSObject) : option Builtin :=
  match o with
  | Voices _ => Some ObjectPrototype
  | Global ObjectPrototype => None
  | Global FunctionPrototype => Some ObjectPrototype
  | Global _ => Some FunctionPrototype
  end.

(** The property found along the prototype chain, at most [depth] links
    up.  No chain here has more than two links. *)
Fixpoint findProperty (depth : nat) (o : JSObject) (key : string) : option Property :=
  match ownProperty o key with
  | Some p => Some p
  | None =>
      match depth, prototypeOf o with
      | S depth', Some proto => findProperty depth' (Global proto) key
      | _, _ => None
      end
  end.

(** [o[key]] *)
Definition Get (o : JSObject) (key : string) : Completion JSValue :=
  match findProperty 2 o key with
  | None => Normal JSUndefined
  | Some (Data v) => Normal v
  | Some ProtoAccessor =>
      Normal match prototypeOf o with
             | Some proto => JSBuiltin proto
             | None => JSNull
             end
  | Some ThrowTypeError =>
      Throw (TypeError "'caller', 'callee', and 'arguments' properties may not be accessed on strict mode functions or the arguments objects for calls to them")
  end.

(** [VOICE_CONFIG[key]]: a member of the table, an inherited object, or
    [undefined] ([None]). *)
Definition Get_VOICE_CONFIG (key : string) : option JSObject :=
  match lookup key VOICE_CONFIG with
  | Some voices => Some (Voices voices)
  | None =>
      match Object_prototype key with
      | Some (Data (JSBuiltin b)) => Some (Global b)
      | Some ProtoAccessor => Some (Global ObjectPrototype)
      | _ => None
      end
  end.

Definition truthyValue (v : JSValue) : bool :=
  match v with
  | JSUndefined | JSNull => false
  | JSNumber n => negb (n =? 0)
  | JSString s => negb (String.eqb s "")
  | JSBuiltin _ => true
  end.

(** [VOICE_CONFIG[contentLanguage]?.[gender] || 'Aoede'] *)
Definition resolveVoice (contentLanguage gender : string) : Completion JSValue :=
  (found <- match Get_VOICE_CONFIG contentLanguage with
            | Some o => Get o gender
            | None => Normal JSUndefined
            end ;;
   Normal (if truthyValue found then found else JSString "Aoede"))%completion.

(** ** The outbound call and its answer *)

Definition TTS_MODEL : string := "gemini-2.5-pro-preview-tts".

Definition REQUEST_TIMEOUT_MS : Z := 300000.

(** The argument of [ai.models.generateContent]. *)
Module Outbound.
Record Part := { text : string }.
Record Content := { parts : list Part }.
Record PrebuiltVoiceConfig := { voiceName : JSValue }.
Record VoiceConfig := { prebuiltVoiceConfig : PrebuiltVoiceConfig }.
Record SpeechConfig := { voiceConfig : VoiceConfig }.
Record Config := { responseModalities : list string; speechConfig : SpeechConfig }.
Record Params := { model : string; contents : list Content; config : Config }.
End Outbound.

(** What the call resolves to.  A field that is absent, [undefined] or
    [null] is [None]. *)
Module Upstream.
Record InlineData := { data : option string; mimeType : option string }.
Record Part := { inlineData : option InlineData }.
Record Content := { parts : option (list Part) }.
Record Candidate := { content : option Content }.
Record Response := { candidates : option (list Candidate) }.
End Upstream.

(** The call resolves to a response, rejects with an error object, or
    never settles. *)
Inductive Outcome : Type :=
| Resolves (response : Upstream.Response)
| Rejects (message : string)
| NeverSettles.

(** ** Effects of a request

    What the handler does to the outside is kept as a trace.  The upstream
    service is a function of the number of calls already made. *)

Inductive Event : Type :=
| GenerateContent (params : Outbound.Params) (timeoutMs : Z)
| Sleep (ms : Z).

Definition isCall (e : Event) : bool :=
  match e with
  | GenerateContent _ _ => true
  | Sleep _ => false
  end.

Definition calls (trace : list Event) : list Event := filter isCall trace.

Definition Eff (A : Type) : Type := list Event -> Completion A * list Event.

Definition ret {A} (a : A) : Eff A := fun trace => (Normal a, trace).

Definition throw {A} (error : Thrown) : Eff A := fun trace => (Throw error, trace).

Definition lift {A} (c : Completion A) : Eff A := fun trace => (c, trace).

Definition bind {A B} (m : Eff A) (k : A -> Eff B) : Eff B :=
  fun trace =>
    match m trace with
    | (Normal a, trace') => k a trace'
    | (Throw e, trace') => (Throw e, trace')
    | (Pending, trace') => (Pending, trace')
    end.

(** [try { m } catch (error) { handler }] *)
Definition tryCatch {A} (m : Eff A) (handler : Thrown -> Eff A) : Eff A :=
  fun trace =>
    match m trace with
    | (Normal a, trace') => (Normal a, trace')
    | (Throw e, trace') => handler e trace'
    | (Pending, trace') => (Pending, trace')
    end.

Definition emit (e : Event) : Eff unit := fun trace => (Normal tt, (trace ++ [e])%list).

Declare Scope eff_scope.
Delimit Scope eff_scope with eff.
Notation "x <- m ;; k" := (bind m (fun x => k))
  (at level 61, m at next level, right associativity) : eff_scope.
Notation "m ;; k" := (bind m (fun _ => k))
  (at level 61, right associativity) : eff_scope.

(** The object literal passed to [ai.models.generateContent]. *)
Definition generateContentParams (fullText : string) (voiceName : JSValue)
  : Outbound.Params :=
  {| Outbound.model := TTS_MODEL;
     Outbound.contents := [ {| Outbound.parts := [ {| Outbound.text := fullText |} ] |} ];
     Outbound.config :=
       {| Outbound.responseModalities := [ "AUDIO" ];
          Outbound.speechConfig :=
            {| Outbound.voiceConfig :=
                 {| Outbound.prebuiltVoiceConfig :=
                      {| Outbound.voiceName := voiceName |} |} |} |} |}.

(** The fields the handler reads from the body of a request. *)
Record NarrationRequest := {
  text : option string;
  gender : option string;
  contentLanguage : option string
}.

(** [req.body]: [undefined] when the JSON middleware parsed nothing,
    else the parsed object. *)
Inductive RequestBody : Type :=
| BodyUndefined
| BodyObject (fields : NarrationRequest).

Coercion BodyObject : NarrationRequest >-> RequestBody.

(** [const { text, gender, contentLanguage } = req.body] *)
Definition destructure (body : RequestBody) : Completion NarrationRequest :=
  match body with
  | BodyObject fields => Normal fields
  | BodyUndefined =>
      Throw (TypeError "Cannot destructure property 'text' of 'req.body' as it is undefined.")
  end.

Section Handler.

Context {codec : Base64Codec}.

(** The upstream service: the outcome of the call made after [n] others. *)
Variable upstream : nat -> Outcome.

(** [generateTTSWithTimeout].  The timer aborts a controller whose signal
    is not handed to the call, and is cleared on both paths: the call's
    own outcome is the function's outcome, and a call that never settles
    is awaited for ever. *)
Definition generateTTSWithTimeout (fullText : string) (voiceName : JSValue)
    (timeoutMs : Z) : Eff Upstream.Response :=
  fun trace =>
    (match upstream (List.length (calls trace)) with
     | Resolves response => Normal response
     | Rejects m => Throw (Error m)
     | NeverSettles => Pending
     end,
     (trace ++ [ GenerateContent (generateContentParams fullText voiceName) timeoutMs ])%list).

(** ** [POST /synthesize] *)

Inductive Body : Type :=
| ErrorBody (error : string)
| AudioBody (audioContent mimeType : string) (voice : JSValue) (language : string).

Record HttpResponse := { status : Z; body : Body }.

Definition orDefault (field : option string) (default : string) : string :=
  match field with
  | Some s => s
  | None => default
  end.

(** [response.candidates?.[0]] and then [candidate?.content?.parts] *)
Definition firstCandidate (response : Upstream.Response) : option Upstream.Candidate :=
  match Upstream.candidates response with
  | Some (candidate :: _) => Some candidate
  | _ => None
  end.

Definition candidateParts (candidate : option Upstream.Candidate)
  : option (list Upstream.Part) :=
  match candidate with
  | Some candidate =>
      match Upstream.content candidate with
      | Some content => Upstream.parts content
      | None => None
      end
  | None => None
  end.

(** [parts.find(part => part.inlineData)] *)
Definition hasInlineData (part : Upstream.Part) : bool :=
  match Upstream.inlineData part with
  | Some _ => true
  | None => false
  end.

(** The body of the inner [try], after the call has resolved. *)
Definition extractAudio (voiceName : JSValue) (contentLanguage : string)
    (response : Upstream.Response) : Completion HttpResponse :=
  let candidate := firstCandidate response in
  match candidateParts candidate with
  | None => Throw (Error "No audio content in response")
  | Some parts =>
      let audioPart := find hasInlineData parts in
      match audioPart with
      | Some {| Upstream.inlineData := Some inlineData |} =>
          if negb (truthy (Upstream.data inlineData))
          then Throw (Error "No audio data found in response")
          else
            let rawAudioBase64 := orDefault (Upstream.data inlineData) "" in
            let rawMimeType :=
              if truthy (Upstream.mimeType inlineData)
              then orDefault (Upstream.mimeType inlineData) ""
              else "audio/L16;rate=24000" in
            (* Convert PCM to WAV if needed *)
            (converted <-
               (if includes rawMimeType "L16" || includes rawMimeType "pcm"
                then (audioBase64 <- pcmToWav rawAudioBase64 ;;
                      Normal (audioBase64, "audio/wav"))
                else Normal (rawAudioBase64, rawMimeType)) ;;
             let '(audioBase64, mimeType) := converted in
             Normal {| status := 200;
                       body := AudioBody audioBase64 mimeType voiceName contentLanguage |}
            )%completion
      | _ => Throw (Error "No audio data found in response")
      end
  end.

(** The [for] loop, in which [attempt] takes the values 1 and 2:
    [attempts] are the values still to come and [lastError] is the error
    of the attempt before. *)
Fixpoint attemptLoop (fullText : string) (voiceName : JSValue) (contentLanguage : string)
    (attempts : list Z) (lastError : Thrown) : Eff HttpResponse :=
  match attempts with
  | [] =>
      (* All attempts failed *)
      throw lastError
  | attempt :: attempts' =>
      tryCatch
        (response <- generateTTSWithTimeout fullText voiceName REQUEST_TIMEOUT_MS ;;
         lift (extractAudio voiceName contentLanguage response))%eff
        (fun error =>
           (_ <- lift (message error) ;;
            (if attempt <? 2 then emit (Sleep 1000) else ret tt) ;;
            attemptLoop fullText voiceName contentLanguage attempts' error)%eff)
  end.

Definition stylePrompt (contentLanguage : string) : string :=
  if String.eqb contentLanguage "es-latam"
  then "Habla en un susurro suave y cercano, con un ritmo muy lento, pausas prolongadas entre frases y un tono cálido tipo ASMR:"
  else "Speak in a soft whisper, very slow rhythm, long pauses between phrases, and a warm tone like ASMR:".

(** The message the outer [catch] sends. *)
Definition userMessage (message : string) : string :=
  if includes message "fetch failed" || includes message "ECONNRESET"
  then "Connection to Gemini API failed. Please try again."
  else if includes message "timeout" || includes message "aborted"
  then "Request timed out. The text might be too long."
  else message.

(** The handler.  A [Throw] of the whole is an exception that leaves the
    handler, and [Pending] a handler that never completes: in both cases
    no response is sent. *)
Definition synthesize (reqBody : RequestBody) : Eff HttpResponse :=
  tryCatch
    (req <- lift (destructure reqBody) ;;
     let gender := orDefault (gender req) "neutral" in
     let contentLanguage := orDefault (contentLanguage req) "es-latam" in
     if negb (truthy (text req))
     then ret {| status := 400; body := ErrorBody "Text is required" |}
     else
       (voiceName <- lift (resolveVoice contentLanguage gender) ;;
        let fullText := stylePrompt contentLanguage ++ " " ++ orDefault (text req) "" in
        (* Try up to 2 times *)
        attemptLoop fullText voiceName contentLanguage [1; 2] ThrownUndefined))%eff
    (fun error =>
       (m <- lift (message error) ;;
        ret {| status := 500; body := ErrorBody (userMessage m) |})%eff).

End Handler.

Local Open Scope list_scope.

(** ** Vocabulary of the statements *)

(** The 44 bytes [pcmToWav] puts before [dataSize] bytes of samples. *)
Definition wavHeader (dataSize : Z) : Buffer :=
  list_byte_of_string "RIFF" ++ Buffer.le_bytes 4 (dataSize + 36)
  ++ list_byte_of_string "WAVE"
  ++ list_byte_of_string "fmt " ++ Buffer.le_bytes 4 16
  ++ Buffer.le_bytes 2 1 ++ Buffer.le_bytes 2 1
  ++ Buffer.le_bytes 4 24000 ++ Buffer.le_bytes 4 48000
  ++ Buffer.le_bytes 2 2 ++ Buffer.le_bytes 2 16
  ++ list_byte_of_string "data" ++ Buffer.le_bytes 4 dataSize.

(** The outcome of the attempt that makes call number [n]: of the call
    itself and of what the handler does with its answer. *)
Definition attemptResult {codec : Base64Codec} (upstream : nat -> Outcome)
    (voiceName : JSValue) (contentLanguage : string) (n : nat)
  : Completion HttpResponse :=
  match upstream n with
  | Resolves response => extractAudio voiceName contentLanguage response
  | Rejects m => Throw (Error m)
  | NeverSettles => Pending
  end.

Definition languageOf (req : NarrationRequest) : string :=
  orDefault (contentLanguage req) "es-latam".

Definition genderOf (req : NarrationRequest) : string :=
  orDefault (gender req) "neutral".

(** The call a request with text [s] and voice [voiceName] makes. *)
Definition callOf (req : NarrationRequest) (s : string) (voiceName : JSValue) : Event :=
  GenerateContent
    (generateContentParams (stylePrompt (languageOf req) ++ " " ++ s)%string voiceName)
    REQUEST_TIMEOUT_MS.

(** A request that passes validation and whose voice lookup returns. *)
Definition validRequest (req : NarrationRequest) (s : string) (voiceName : JSValue) : Prop :=
  text req = Some s /\ s <> ""%string
  /\ resolveVoice (languageOf req) (genderOf req) = Normal voiceName.

(** The handler answers [answer] to the response [response], on whichever
    attempt it arrives: as what it makes of the response, as the answer to
    the request when the first call resolves to it, and as the answer to
    the request when the first attempt has failed and the second call
    resolves to it. *)
Definition answersWith {codec : Base64Codec} (upstream : nat -> Outcome)
    (req : NarrationRequest) (s : string) (voiceName : JSValue)
    (response : Upstream.Response) (answer : HttpResponse) : Prop :=
  extractAudio voiceName (languageOf req) response = Normal answer
  /\ (upstream 0%nat = Resolves response ->
      synthesize upstream req [] = (Normal answer, [callOf req s voiceName]))
  /\ (forall e1 : Thrown,
        attemptResult upstream voiceName (languageOf req) 0 = Throw e1 ->
        upstream 1%nat = Resolves response ->
        synthesize upstream req []
        = (Normal answer,
           [callOf req s voiceName; Sleep 1000; callOf req s voiceName])).

(** A response whose first candidate has the parts [pre], then a part
    with the inline data [payload], then [post]; [others] are the
    candidates after the first. *)
Definition responseWith (pre : list Upstream.Part) (payload : Upstream.InlineData)
    (post : list Upstream.Part) (others : list Upstream.Candidate) : Upstream.Response :=
  {| Upstream.candidates :=
       Some ({| Upstream.content :=
                  Some {| Upstream.parts :=
                            Some (pre ++ {| Upstream.inlineData := Some payload |} :: post) |} |}
             :: others) |}.

(** Inputs the statements below are run on. *)
Definition sampleRequest : NarrationRequest :=
  {| text := Some "hola"; gender := Some "male"; contentLanguage := None |}.

Definition pcmPayload : Upstream.InlineData :=
  {| Upstream.data := Some "AQID"; Upstream.mimeType := Some "audio/L16;codec=pcm;rate=24000" |}.

Definition mp3Payload : Upstream.InlineData :=
  {| Upstream.data := Some "SUQz"; Upstream.mimeType := Some "audio/mpeg" |}.

Definition untypedPayload : Upstream.InlineData :=
  {| Upstream.data := Some "AQID"; Upstream.mimeType := None |}.


Definition textPart : Upstream.Part := {| Upstream.inlineData := None |}.

Definition audioPart (payload : Upstream.InlineData) : Upstream.Part :=
  {| Upstream.inlineData := Some payload |}.


(** An upstream that fails once and then answers. *)
Definition failsOnce (response : Upstream.Response) (n : nat) : Outcome :=
  match n with
  | O => Rejects "fetch failed"
  | S _ => Resolves response
  end.

Definition rawPcmPayload : Upstream.InlineData :=
  {| Upstream.data := Some "AQID"; Upstream.mimeType := Some "audio/pcm" |}.

Definition noCandidates : Upstream.Response := {| Upstream.candidates := Some [] |}.

(** ** The other endpoints *)

(** Voice descriptions for documentation. *)
Definition VOICE_DESCRIPTIONS : list (string * string) :=
  [ ("Sulafat", "Warm - Soothing and comforting");
    ("Achernar", "Soft - Gentle and delicate");
    ("Aoede", "Breezy - Light and serene");
    ("Vindemiatrix", "Gentle - Calm and peaceful");
    ("Enceladus", "Breathy - Ethereal and meditative") ]%string.

(** [GET /] *)
Module Health.
Record Body := { status : string; service : string; model : string }.
End Health.

Definition healthCheck : Health.Body :=
  {| Health.status := "ok"; Health.service := "TTS API Pro"; Health.model := TTS_MODEL |}.

(** [GET /voices] *)
Module VoiceList.
Record Body := {
  model : string;
  voices : list (string * list (string * string));
  descriptions : list (string * string);
  allAvailableVoices : list string
}.
End VoiceList.

Definition listVoices : VoiceList.Body :=
  {| VoiceList.model := TTS_MODEL;
     VoiceList.voices := VOICE_CONFIG;
     VoiceList.descriptions := VOICE_DESCRIPTIONS;
     VoiceList.allAvailableVoices :=
       [ "Zephyr"; "Puck"; "Charon"; "Kore"; "Fenrir"; "Leda"; "Orus"; "Aoede";
         "Callirrhoe"; "Autonoe"; "Enceladus"; "Iapetus"; "Umbriel"; "Algieba";
         "Despina"; "Erinome"; "Algenib"; "Rasalgethi"; "Laomedeia"; "Achernar";
         "Alnilam"; "Schedar"; "Gacrux"; "Pulcherrima"; "Achird"; "Zubenelgenubi";
         "Vindemiatrix"; "Sadachbia"; "Sadaltager"; "Sulafat" ]%string |}.

(** * Properties *)

(** ** Bytes *)

Lemma Z_of_byte_of_Z (z : Z) : Z_of_byte (byte_of_Z z) = z mod 256.
Proof.
  unfold Z_of_byte, byte_of_Z.
  change 255 with (Z.ones 8). rewrite Z.land_ones by lia.
  change (2 ^ 8) with 256.
  assert (B : 0 <= z mod 256 < 256) by (apply Z.mod_pos_bound; lia).
  destruct (Byte.of_N (Z.to_N (z mod 256))) as [b|] eqn:E.
  - apply Byte.to_of_N in E. rewrite E. apply Z2N.id. lia.
  - apply Byte.of_N_None_iff in E. lia.
Qed.

Lemma Z_of_byte_range (b : byte) : 0 <= Z_of_byte b <= 255.
Proof.
  unfold Z_of_byte. pose proof (Byte.to_N_bounded b). lia.
Qed.

(** ** Buffers *)

Lemma blit_length (dst : Buffer) (offset : nat) (src : list byte) :
  List.length (Buffer.blit dst offset src) = List.length dst.
Proof.
  revert offset src.
  induction dst as [|d dst IH]; intros offset src; simpl; [reflexivity|].
  destruct offset as [|offset].
  - destruct src as [|s src]; simpl; [reflexivity|]. now rewrite IH.
  - simpl. now rewrite IH.
Qed.

Lemma alloc_length (size : nat) : List.length (Buffer.alloc size) = size.
Proof. apply repeat_length. Qed.

(** Storing a whole buffer over one of the same length replaces it. *)
Lemma blit_all (src dst : Buffer) :
  List.length dst = List.length src -> Buffer.blit dst 0 src = src.
Proof.
  revert src.
  induction dst as [|d dst IH]; intros [|s src] H; simpl in *; try discriminate; auto.
  f_equal. apply IH. congruence.
Qed.

(** Storing after a prefix leaves the prefix alone. *)
Lemma blit_app (prefix rest : Buffer) (src : list byte) :
  Buffer.blit (prefix ++ rest) (List.length prefix) src = prefix ++ Buffer.blit rest 0 src.
Proof.
  induction prefix as [|p prefix IH]; simpl.
  - destruct rest; reflexivity.
  - now rewrite IH.
Qed.

Lemma write_ok (buf : Buffer) (s : string) (offset : nat) :
  (offset <= List.length buf)%nat ->
  Buffer.write buf s offset = Normal (Buffer.blit buf offset (list_byte_of_string s)).
Proof.
  intros H. unfold Buffer.write.
  now rewrite (proj2 (Nat.leb_le _ _) H).
Qed.

Lemma writeUIntLE_ok (width : nat) (buf : Buffer) (value : Z) (offset : nat) :
  0 <= value <= 2 ^ (8 * Z.of_nat width) - 1 ->
  (offset + width <= List.length buf)%nat ->
  Buffer.writeUIntLE width buf value offset
  = Normal (Buffer.blit buf offset (Buffer.le_bytes width value)).
Proof.
  intros [Hlo Hhi] Hoff. unfold Buffer.writeUIntLE.
  rewrite (proj2 (Z.leb_le _ _) Hlo), (proj2 (Z.leb_le _ _) Hhi).
  now rewrite (proj2 (Nat.leb_le _ _) Hoff).
Qed.

Lemma writeUIntLE_out_of_range (width : nat) (buf : Buffer) (value : Z) (offset : nat) :
  2 ^ (8 * Z.of_nat width) - 1 < value ->
  Buffer.writeUIntLE width buf value offset = Throw (RangeError "ERR_OUT_OF_RANGE: value").
Proof.
  intros H. unfold Buffer.writeUIntLE.
  rewrite (proj2 (Z.leb_gt _ _) H). now rewrite andb_false_r.
Qed.

(** A little-endian field reads back as the value written. *)
Lemma le_value_le_bytes_32 (value : Z) :
  0 <= value <= 4294967295 -> Buffer.le_value (Buffer.le_bytes 4 value) = value.
Proof.
  intros H. unfold Buffer.le_bytes. cbn [seq map Buffer.le_value].
  rewrite !Z_of_byte_of_Z, !Z.shiftr_div_pow2 by lia.
  change (2 ^ (8 * Z.of_nat 0)) with 1. change (2 ^ (8 * Z.of_nat 1)) with 256.
  change (2 ^ (8 * Z.of_nat 2)) with 65536. change (2 ^ (8 * Z.of_nat 3)) with 16777216.
  Z.div_mod_to_equations. lia.
Qed.

Lemma le_value_le_bytes_16 (value : Z) :
  0 <= value <= 65535 -> Buffer.le_value (Buffer.le_bytes 2 value) = value.
Proof.
  intros H. unfold Buffer.le_bytes. cbn [seq map Buffer.le_value].
  rewrite !Z_of_byte_of_Z, !Z.shiftr_div_pow2 by lia.
  change (2 ^ (8 * Z.of_nat 0)) with 1. change (2 ^ (8 * Z.of_nat 1)) with 256.
  Z.div_mod_to_equations. lia.
Qed.

(** ** The encoder *)

Lemma wavHeader_length (dataSize : Z) : List.length (wavHeader dataSize) = 44%nat.
Proof. reflexivity. Qed.

Ltac buffer_length :=
  rewrite ?blit_length, ?alloc_length; unfold headerSize; lia.

Ltac field_range :=
  match goal with
  | |- context [2 ^ (8 * Z.of_nat 4)] => change (2 ^ (8 * Z.of_nat 4)) with 4294967296
  | |- context [2 ^ (8 * Z.of_nat 2)] => change (2 ^ (8 * Z.of_nat 2)) with 65536
  end; cbn; lia.

Lemma pcmToWavBuffer_in_range (pcm : Buffer) :
  Z.of_nat (List.length pcm) + 36 <= 4294967295 ->
  pcmToWavBuffer pcm = Normal (wavHeader (Z.of_nat (List.length pcm)) ++ pcm).
Proof.
  intros H. unfold pcmToWavBuffer. cbv zeta.
  unfold Buffer.writeUInt32LE, Buffer.writeUInt16LE.
  replace (Z.of_nat (headerSize + List.length pcm) - 8)
    with (Z.of_nat (List.length pcm) + 36) by (unfold headerSize; lia).
  set (dataSize := Z.of_nat (List.length pcm)) in *.
  assert (0 <= dataSize) by (subst dataSize; lia).
  repeat (first
    [ rewrite write_ok by buffer_length
    | rewrite writeUIntLE_ok by first [ buffer_length | field_range ] ];
    cbn [bindC]).
  f_equal. unfold Buffer.copy, Buffer.alloc, headerSize.
  rewrite repeat_app.
  change (24000 * 1 * (16 / 8)) with 48000. change (1 * (16 / 8)) with 2.
  match goal with
  | |- Buffer.blit ?buf 44 pcm = _ =>
      replace buf with (wavHeader dataSize ++ repeat x00 (List.length pcm))
  end.
  - change 44%nat with (List.length (wavHeader dataSize)).
    rewrite blit_app. f_equal. apply blit_all. apply repeat_length.
  - clearbody dataSize. unfold wavHeader, Buffer.le_bytes.
    cbn [repeat app map seq Buffer.blit list_byte_of_string list_ascii_of_string].
    repeat f_equal. now destruct (repeat x00 (List.length pcm)).
Qed.

Lemma pcmToWavBuffer_out_of_range (pcm : Buffer) :
  4294967295 < Z.of_nat (List.length pcm) + 36 ->
  pcmToWavBuffer pcm = Throw (RangeError "ERR_OUT_OF_RANGE: value").
Proof.
  intros H. unfold pcmToWavBuffer. cbv zeta.
  rewrite write_ok by buffer_length. cbn [bindC].
  unfold Buffer.writeUInt32LE at 1.
  rewrite writeUIntLE_out_of_range; [reflexivity|].
  change (2 ^ (8 * Z.of_nat 4)) with 4294967296. unfold headerSize. lia.
Qed.

(** The encoder throws or returns the header followed by the samples. *)
Lemma pcmToWavBuffer_Normal (pcm wav : Buffer) :
  pcmToWavBuffer pcm = Normal wav ->
  Z.of_nat (List.length pcm) + 36 <= 4294967295
  /\ wav = wavHeader (Z.of_nat (List.length pcm)) ++ pcm.
Proof.
  intros E.
  destruct (Z_le_gt_dec (Z.of_nat (List.length pcm) + 36) 4294967295) as [H|H].
  - split; [exact H|]. rewrite (pcmToWavBuffer_in_range pcm H) in E. congruence.
  - rewrite pcmToWavBuffer_out_of_range in E by lia. discriminate.
Qed.

Lemma readUIntLE_header (width offset : nat) (dataSize : Z) (pcm : Buffer) :
  (offset + width <= 44)%nat ->
  Buffer.readUIntLE width (wavHeader dataSize ++ pcm) offset
  = Some (Buffer.le_value (Buffer.slice (wavHeader dataSize) offset (offset + width))).
Proof.
  intros H. unfold Buffer.readUIntLE.
  rewrite length_app, wavHeader_length.
  rewrite (proj2 (Nat.leb_le _ _)) by lia.
  f_equal. f_equal. unfold Buffer.slice.
  rewrite skipn_app, firstn_app, wavHeader_length, length_skipn, wavHeader_length.
  replace (offset + width - offset - (44 - offset))%nat with 0%nat by lia.
  replace (offset - 44)%nat with 0%nat by lia.
  cbn [skipn firstn]. apply app_nil_r.
Qed.


Lemma wav_length (dataSize : Z) (pcm : Buffer) :
  List.length (wavHeader dataSize ++ pcm) = (List.length pcm + 44)%nat.
Proof. rewrite length_app, wavHeader_length. lia. Qed.

Lemma wav_samples (dataSize : Z) (pcm : Buffer) :
  Buffer.slice (wavHeader dataSize ++ pcm) 44 (44 + List.length pcm) = pcm.
Proof.
  unfold Buffer.slice.
  change 44%nat with (List.length (wavHeader dataSize)).
  rewrite skipn_app, Nat.sub_diag, skipn_all, Nat.add_comm, Nat.add_sub.
  cbn [skipn app]. apply firstn_all.
Qed.

Lemma wav_field_32 (offset : nat) (dataSize value : Z) (pcm : Buffer) :
  (offset + 4 <= 44)%nat ->
  Buffer.slice (wavHeader dataSize) offset (offset + 4) = Buffer.le_bytes 4 value ->
  0 <= value <= 4294967295 ->
  Buffer.readUInt32LE (wavHeader dataSize ++ pcm) offset = Some value.
Proof.
  intros Hoff Hbytes Hrange. unfold Buffer.readUInt32LE.
  rewrite readUIntLE_header by exact Hoff.
  now rewrite Hbytes, le_value_le_bytes_32.
Qed.

Lemma wav_field_16 (offset : nat) (dataSize value : Z) (pcm : Buffer) :
  (offset + 2 <= 44)%nat ->
  Buffer.slice (wavHeader dataSize) offset (offset + 2) = Buffer.le_bytes 2 value ->
  0 <= value <= 65535 ->
  Buffer.readUInt16LE (wavHeader dataSize ++ pcm) offset = Some value.
Proof.
  intros Hoff Hbytes Hrange. unfold Buffer.readUInt16LE.
  rewrite readUIntLE_header by exact Hoff.
  now rewrite Hbytes, le_value_le_bytes_16.
Qed.

(** C1.  For a PCM buffer of any length [L] whose sizes fit the 32-bit
    fields of the header, odd lengths included, [pcmToWav] returns a buffer
    of [L + 44] bytes; its bytes from 44 to [44 + L] are the input; the
    little-endian field at offset 40 is [L] and the one at offset 4 is
    [L + 36]. *)
Theorem pcmToWav_layout (pcm : Buffer) :
  Z.of_nat (List.length pcm) + 36 <= 4294967295 ->
  exists wav : Buffer,
    pcmToWavBuffer pcm = Normal wav
    /\ (forall (codec : Base64Codec) (pcmBase64 : string),
          fromBase64 pcmBase64 = pcm -> pcmToWav pcmBase64 = Normal (toBase64 wav))
    /\ List.length wav = (List.length pcm + 44)%nat
    /\ Buffer.slice wav 44 (44 + List.length pcm) = pcm
    /\ Buffer.readUInt32LE wav 40 = Some (Z.of_nat (List.length pcm))
    /\ Buffer.readUInt32LE wav 4 = Some (Z.of_nat (List.length pcm) + 36).
Proof.
  intros H. pose proof (pcmToWavBuffer_in_range pcm H) as E.
  exists (wavHeader (Z.of_nat (List.length pcm)) ++ pcm).
  repeat split.
  - exact E.
  - intros codec pcmBase64 <-. unfold pcmToWav. cbv zeta. now rewrite E.
  - apply wav_length.
  - apply wav_samples.
  - apply wav_field_32; [lia | reflexivity | lia].
  - apply wav_field_32; [lia | reflexivity | lia].
Qed.

Lemma pcmToWav_layout_witness :
  Z.of_nat (List.length [x01; x02; x03]) + 36 <= 4294967295
  /\ exists wav : Buffer,
       pcmToWavBuffer [x01; x02; x03] = Normal wav
       /\ (forall (codec : Base64Codec) (pcmBase64 : string),
             fromBase64 pcmBase64 = [x01; x02; x03] ->
             pcmToWav pcmBase64 = Normal (toBase64 wav))
       /\ List.length wav = (List.length [x01; x02; x03] + 44)%nat
       /\ Buffer.slice wav 44 (44 + List.length [x01; x02; x03]) = [x01; x02; x03]
       /\ Buffer.readUInt32LE wav 40 = Some (Z.of_nat (List.length [x01; x02; x03]))
       /\ Buffer.readUInt32LE wav 4 = Some (Z.of_nat (List.length [x01; x02; x03]) + 36).
Proof.
  split; [simpl; lia | apply (pcmToWav_layout [x01; x02; x03]); simpl; lia].
Defined.

(** C8, as stated, fails: the field at offset 4 is not the length of the
    whole buffer.  For two bytes of samples the buffer has 46 bytes and
    the field holds 38. *)
Lemma wav_total_size_counterexample :
  exists wav : Buffer,
    pcmToWavBuffer [x01; x02] = Normal wav
    /\ Buffer.readUInt32LE wav 4 = Some 38
    /\ Z.of_nat (List.length wav) = 46
    /\ Buffer.readUInt32LE wav 4 <> Some (Z.of_nat (List.length wav)).
Proof.
  eexists. split; [reflexivity|]. repeat split. discriminate.
Qed.

(** C8, amended.  In every buffer the encoder returns, the field at
    offset 4 is the length of the buffer less the 8 bytes that end with
    that field, the field at offset 40 is the length of the sample region
    that follows the 44-byte header, that region is the input, and every
    integer field of the header holds its value least significant byte
    first. *)
Theorem wav_header_sizes (pcm wav : Buffer) :
  pcmToWavBuffer pcm = Normal wav ->
  Buffer.readUInt32LE wav 4 = Some (Z.of_nat (List.length wav) - 8)
  /\ Buffer.readUInt32LE wav 40 = Some (Z.of_nat (List.length (skipn 44 wav)))
  /\ skipn 44 wav = pcm
  /\ Buffer.slice wav 4 8 = Buffer.le_bytes 4 (Z.of_nat (List.length wav) - 8)
  /\ Buffer.slice wav 40 44 = Buffer.le_bytes 4 (Z.of_nat (List.length pcm))
  /\ Buffer.readUInt32LE wav 16 = Some 16
  /\ Buffer.readUInt16LE wav 20 = Some 1
  /\ Buffer.readUInt16LE wav 22 = Some 1
  /\ Buffer.readUInt32LE wav 24 = Some 24000
  /\ Buffer.readUInt32LE wav 28 = Some 48000
  /\ Buffer.readUInt16LE wav 32 = Some 2
  /\ Buffer.readUInt16LE wav 34 = Some 16.
Proof.
  intros E. apply pcmToWavBuffer_Normal in E as [H ->].
  set (dataSize := Z.of_nat (List.length pcm)) in *.
  assert (Hskip : skipn 44 (wavHeader dataSize ++ pcm) = pcm).
  { change 44%nat with (List.length (wavHeader dataSize)).
    now rewrite skipn_app, Nat.sub_diag, skipn_all. }
  rewrite Hskip, wav_length.
  replace (Z.of_nat (List.length pcm + 44) - 8) with (dataSize + 36)
    by (subst dataSize; lia).
  assert (0 <= dataSize) by (subst dataSize; lia).
  repeat split;
    try (apply wav_field_32; [lia | reflexivity | lia]);
    try (apply wav_field_16; [lia | reflexivity | lia]);
    reflexivity.
Qed.

Lemma wav_header_sizes_witness :
  pcmToWavBuffer [x01; x02; x03] = Normal (wavHeader 3 ++ [x01; x02; x03])
  /\ Buffer.readUInt32LE (wavHeader 3 ++ [x01; x02; x03]) 4 = Some (47 - 8)
  /\ Buffer.readUInt32LE (wavHeader 3 ++ [x01; x02; x03]) 40 = Some 3.
Proof.
  split; [reflexivity|].
  pose proof (wav_header_sizes [x01; x02; x03] (wavHeader 3 ++ [x01; x02; x03]) eq_refl)
    as (H4 & H40 & _).
  split; [exact H4 | exact H40].
Defined.

(** *** The reference codec *)

Example RFC4648_encode : RFC4648.encode [x01; x02; x03; xff] = "AQID/w=="%string.
Proof. reflexivity. Qed.

Example RFC4648_decode : RFC4648.decode "AQID/w==" = [x01; x02; x03; xff].
Proof. reflexivity. Qed.

Example RFC4648_decode_url_safe : RFC4648.decode "-_-_" = [xfb; xff; xbf].
Proof. reflexivity. Qed.

Lemma sextets_length (s : string) :
  (List.length (RFC4648.sextets s) <= String.length s)%nat.
Proof.
  induction s as [|c s IH]; cbn [RFC4648.sextets String.length List.length]; [lia|].
  destruct (Ascii.eqb c "="%char); cbn [List.length]; [lia|].
  destruct (RFC4648.sextet c); cbn [List.length]; lia.
Qed.

Lemma bytes_of_sextets_length (vs : list Z) :
  (List.length (RFC4648.bytes_of_sextets vs) <= List.length vs)%nat.
Proof.
  remember (List.length vs) as n eqn:Hn.
  assert (Hle : (List.length vs <= n)%nat) by lia. clear Hn.
  revert vs Hle. induction n as [n IH] using (well_founded_induction lt_wf).
  intros [|a [|b [|c [|d rest]]]] Hle; cbn [RFC4648.bytes_of_sextets List.length] in *;
    try lia.
  assert ((List.length (RFC4648.bytes_of_sextets rest) <= n - 4)%nat);
    [apply (IH (n - 4)%nat); lia | lia].
Qed.

(** Decoding gives no more bytes than the text has characters, so the
    text of any length below 2^32 - 36 decodes to a buffer the encoder
    accepts. *)
Lemma RFC4648_decode_length (s : string) :
  (List.length (RFC4648.decode s) <= String.length s)%nat.
Proof.
  unfold RFC4648.decode.
  pose proof (bytes_of_sextets_length (RFC4648.sextets s)).
  pose proof (sextets_length s). lia.
Qed.

Lemma pcmToWav_on_text (pcmBase64 : string) :
  Z.of_nat (String.length pcmBase64) + 36 <= 4294967295 ->
  exists wav : Buffer,
    pcmToWav (codec := RFC4648.codec) pcmBase64 = Normal (RFC4648.encode wav)
    /\ List.length wav = (List.length (RFC4648.decode pcmBase64) + 44)%nat.
Proof.
  intros H. pose proof (RFC4648_decode_length pcmBase64) as Hlen.
  unfold pcmToWav. cbv zeta. cbn [fromBase64 toBase64 RFC4648.codec].
  rewrite pcmToWavBuffer_in_range by lia. cbn [bindC].
  eexists. split; [reflexivity | apply wav_length].
Qed.

(** ** Voice resolution *)

Lemma resolveVoice_table :
  resolveVoice "es-latam" "male" = Normal (JSString "Sulafat")
  /\ resolveVoice "es-latam" "female" = Normal (JSString "Achernar")
  /\ resolveVoice "es-latam" "neutral" = Normal (JSString "Aoede")
  /\ resolveVoice "en" "male" = Normal (JSString "Sulafat")
  /\ resolveVoice "en" "female" = Normal (JSString "Vindemiatrix")
  /\ resolveVoice "en" "neutral" = Normal (JSString "Enceladus").
Proof. repeat split. Qed.

(** A language that names no property of the table, own or inherited,
    resolves to the fallback voice whatever the gender. *)
Lemma resolveVoice_fallback (contentLanguage gender : string) :
  lookup contentLanguage VOICE_CONFIG = None ->
  Object_prototype contentLanguage = None ->
  resolveVoice contentLanguage gender = Normal (JSString "Aoede").
Proof.
  intros Hown Hinherited. unfold resolveVoice, Get_VOICE_CONFIG.
  now rewrite Hown, Hinherited.
Qed.

(** ** The handler *)

Section HandlerFacts.

Context {codec : Base64Codec}.
Variable upstream : nat -> Outcome.

Lemma truthy_Some (s : string) : s <> ""%string -> truthy (Some s) = true.
Proof.
  intros H. unfold truthy. now rewrite (proj2 (String.eqb_neq s "") H).
Qed.

Lemma truthy_true (field : option string) :
  truthy field = true -> exists s, field = Some s /\ s <> ""%string.
Proof.
  destruct field as [s|]; [|discriminate]. unfold truthy. intros H.
  exists s. split; [reflexivity|].
  apply String.eqb_neq. now destruct (String.eqb s "").
Qed.

Lemma pcmToWav_error (pcmBase64 : string) (e : Thrown) :
  pcmToWav pcmBase64 = Throw e -> e = RangeError "ERR_OUT_OF_RANGE: value".
Proof.
  unfold pcmToWav. cbv zeta. set (pcm := fromBase64 pcmBase64).
  destruct (Z_le_gt_dec (Z.of_nat (List.length pcm) + 36) 4294967295) as [H|H].
  - rewrite (pcmToWavBuffer_in_range pcm H). discriminate.
  - rewrite pcmToWavBuffer_out_of_range by lia. cbn. congruence.
Qed.

(** The encoder awaits nothing. *)
Lemma pcmToWav_settles (pcmBase64 : string) : pcmToWav pcmBase64 <> Pending.
Proof.
  unfold pcmToWav. cbv zeta. set (pcm := fromBase64 pcmBase64).
  destruct (Z_le_gt_dec (Z.of_nat (List.length pcm) + 36) 4294967295) as [H|H].
  - rewrite (pcmToWavBuffer_in_range pcm H). discriminate.
  - rewrite pcmToWavBuffer_out_of_range by lia. discriminate.
Qed.

Lemma message_settles (e : Thrown) : message e <> Pending.
Proof. destruct e; discriminate. Qed.

(** Whatever an attempt throws is an error object. *)
Lemma extractAudio_error (voiceName : JSValue) (language : string)
    (response : Upstream.Response) (e : Thrown) :
  extractAudio voiceName language response = Throw e ->
  exists m, message e = Normal m.
Proof.
  unfold extractAudio. cbv zeta.
  destruct (candidateParts (firstCandidate response)) as [parts|];
    [|intros [= <-]; eexists; reflexivity].
  destruct (find hasInlineData parts) as [[[inlineData|]]|].
  2, 3: intros [= <-]; eexists; reflexivity.
  destruct (negb (truthy (Upstream.data inlineData))).
  { intros [= <-]; eexists; reflexivity. }
  destruct (includes _ "L16" || includes _ "pcm").
  2: { cbn [bindC]. intros H. discriminate H. }
  destruct (pcmToWav _) as [wav|e'|] eqn:E.
  { cbn [bindC]. intros H. discriminate H. }
  2: { cbn [bindC]. intros H. discriminate H. }
  cbn [bindC]. intros [= <-]. apply pcmToWav_error in E. subst. eexists; reflexivity.
Qed.

(** What the handler does with an answer awaits nothing. *)
Lemma extractAudio_settles (voiceName : JSValue) (language : string)
    (response : Upstream.Response) :
  extractAudio voiceName language response <> Pending.
Proof.
  unfold extractAudio. cbv zeta.
  destruct (candidateParts (firstCandidate response)) as [parts|]; [|discriminate].
  destruct (find hasInlineData parts) as [[[inlineData|]]|]; try discriminate.
  destruct (negb (truthy (Upstream.data inlineData))); [discriminate|].
  destruct (includes _ "L16" || includes _ "pcm"); [|discriminate].
  destruct (pcmToWav _) as [wav|e'|] eqn:E; cbn [bindC]; try discriminate.
  now elim (pcmToWav_settles _ E).
Qed.

Lemma attemptResult_error (voiceName : JSValue) (language : string) (n : nat) (e : Thrown) :
  attemptResult upstream voiceName language n = Throw e -> exists m, message e = Normal m.
Proof.
  unfold attemptResult. destruct (upstream n) as [response|m|].
  - apply extractAudio_error.
  - intros [= <-]. eexists; reflexivity.
  - discriminate.
Qed.

(** An attempt is pending exactly when its call never settles. *)
Lemma attemptResult_pending (voiceName : JSValue) (language : string) (n : nat) :
  attemptResult upstream voiceName language n = Pending <-> upstream n = NeverSettles.
Proof.
  unfold attemptResult. destruct (upstream n) as [response|m|].
  - split; [|discriminate]. intros H. now elim (extractAudio_settles _ _ _ H).
  - split; discriminate.
  - split; reflexivity.
Qed.

(** One turn of the loop: the call is recorded, and the turn returns the
    response, goes on to the remaining attempts, or waits for ever. *)
Lemma attemptLoop_step (fullText : string) (voiceName : JSValue) (language : string)
    (attempt : Z) (attempts : list Z) (lastError : Thrown) (trace : list Event) :
  attemptLoop upstream fullText voiceName language (attempt :: attempts) lastError trace
  = let trace' := trace ++ [GenerateContent (generateContentParams fullText voiceName)
                              REQUEST_TIMEOUT_MS] in
    match attemptResult upstream voiceName language (List.length (calls trace)) with
    | Normal r => (Normal r, trace')
    | Throw e =>
        match message e with
        | Normal _ =>
            attemptLoop upstream fullText voiceName language attempts e
              (if attempt <? 2 then trace' ++ [Sleep 1000] else trace')
        | Throw e' => (Throw e', trace')
        | Pending => (Pending, trace')
        end
    | Pending => (Pending, trace')
    end.
Proof.
  cbn [attemptLoop]. unfold tryCatch, bind, generateTTSWithTimeout, lift, attemptResult.
  cbv zeta.
  destruct (upstream (List.length (calls trace))) as [response|m|].
  - destruct (extractAudio voiceName language response) as [r|e|]; [reflexivity| |reflexivity].
    destruct (message e); [|reflexivity|reflexivity].
    destruct (attempt <? 2); reflexivity.
  - cbn [message]. destruct (attempt <? 2); reflexivity.
  - reflexivity.
Qed.

(** The two attempts of a request, from an empty trace. *)
Lemma attemptLoop_run (fullText : string) (voiceName : JSValue) (language : string) :
  let call := GenerateContent (generateContentParams fullText voiceName)
                REQUEST_TIMEOUT_MS in
  attemptLoop upstream fullText voiceName language [1; 2] ThrownUndefined []
  = match attemptResult upstream voiceName language 0 with
    | Normal r => (Normal r, [call])
    | Throw _ =>
        match attemptResult upstream voiceName language 1 with
        | Normal r => (Normal r, [call; Sleep 1000; call])
        | Throw e2 => (Throw e2, [call; Sleep 1000; call])
        | Pending => (Pending, [call; Sleep 1000; call])
        end
    | Pending => (Pending, [call])
    end.
Proof.
  intros call. rewrite attemptLoop_step. cbv zeta. cbn [calls filter List.length app].
  destruct (attemptResult upstream voiceName language 0) as [r|e1|] eqn:E1;
    [reflexivity| |reflexivity].
  destruct (attemptResult_error _ _ _ _ E1) as [m1 ->].
  change (1 <? 2) with true. cbv iota.
  rewrite attemptLoop_step. cbv zeta.
  cbn [calls filter isCall List.length app].
  destruct (attemptResult upstream voiceName language 1) as [r|e2|] eqn:E2;
    [reflexivity| |reflexivity].
  destruct (attemptResult_error _ _ _ _ E2) as [m2 ->].
  reflexivity.
Qed.

(** The handler on a request without a body. *)
Lemma synthesize_no_body (trace : list Event) :
  synthesize upstream BodyUndefined trace
  = (Normal {| status := 500;
               body := ErrorBody
                         "Cannot destructure property 'text' of 'req.body' as it is undefined." |},
     trace).
Proof. reflexivity. Qed.

(** The handler on a request without text. *)
Lemma synthesize_no_text (req : NarrationRequest) (trace : list Event) :
  truthy (text req) = false ->
  synthesize upstream req trace
  = (Normal {| status := 400; body := ErrorBody "Text is required" |}, trace).
Proof.
  intros H. unfold synthesize, tryCatch, bind at 1, lift at 1. cbn [destructure].
  cbv zeta. now rewrite H.
Qed.

(** The handler on a request whose voice lookup throws. *)
Lemma synthesize_voice_throws (req : NarrationRequest) (e : Thrown) :
  truthy (text req) = true ->
  resolveVoice (languageOf req) (genderOf req) = Throw e ->
  exists m, synthesize upstream req []
            = (Normal {| status := 500; body := ErrorBody (userMessage m) |}, []).
Proof.
  intros Htext Hvoice. unfold synthesize, tryCatch, bind at 1, lift at 1.
  cbn [destructure]. cbv zeta. rewrite Htext.
  cbn [negb]. unfold bind at 1, lift at 1.
  fold (languageOf req) (genderOf req). rewrite Hvoice.
  assert (exists m, message e = Normal m) as [m Hm].
  { revert Hvoice. unfold resolveVoice.
    destruct (Get_VOICE_CONFIG (languageOf req)) as [o|]; [|discriminate].
    unfold Get.
    destruct (findProperty 2 o (genderOf req)) as [[v| |]|]; try discriminate.
    cbn. intros [= <-]. eexists; reflexivity. }
  exists m. unfold bind, lift. now rewrite Hm.
Qed.

(** The handler on a valid request. *)
Lemma synthesize_valid (req : NarrationRequest) (s : string) (voiceName : JSValue) :
  validRequest req s voiceName ->
  let call := callOf req s voiceName in
  synthesize upstream req []
  = match attemptResult upstream voiceName (languageOf req) 0 with
    | Normal r => (Normal r, [call])
    | Throw _ =>
        match attemptResult upstream voiceName (languageOf req) 1 with
        | Normal r => (Normal r, [call; Sleep 1000; call])
        | Throw e2 =>
            match message e2 with
            | Normal m =>
                (Normal {| status := 500; body := ErrorBody (userMessage m) |},
                 [call; Sleep 1000; call])
            | Throw e' => (Throw e', [call; Sleep 1000; call])
            | Pending => (Pending, [call; Sleep 1000; call])
            end
        | Pending => (Pending, [call; Sleep 1000; call])
        end
    | Pending => (Pending, [call])
    end.
Proof.
  intros (Htext & Hs & Hvoice) call.
  unfold synthesize, tryCatch, bind at 1, lift at 1. cbn [destructure].
  cbv zeta.
  rewrite Htext, (truthy_Some s Hs). cbn [negb orDefault].
  unfold bind at 1, lift at 1.
  fold (languageOf req) (genderOf req). rewrite Hvoice.
  rewrite attemptLoop_run. fold call.
  destruct (attemptResult upstream voiceName (languageOf req) 0); [reflexivity| |reflexivity].
  destruct (attemptResult upstream voiceName (languageOf req) 1) as [r|e2|];
    [reflexivity| |reflexivity].
  unfold bind, lift, ret. destruct (message e2); reflexivity.
Qed.

End HandlerFacts.

Lemma find_first_inlineData (pre post : list Upstream.Part) (payload : Upstream.InlineData) :
  existsb hasInlineData pre = false ->
  find hasInlineData (pre ++ {| Upstream.inlineData := Some payload |} :: post)
  = Some {| Upstream.inlineData := Some payload |}.
Proof.
  induction pre as [|p pre IH]; cbn [existsb app find]; [reflexivity|].
  intros H. apply orb_false_elim in H as [Hp Hpre].
  rewrite Hp. now apply IH.
Qed.

Section Extraction.

Context {codec : Base64Codec}.
Variables (voiceName : JSValue) (language : string).
Variables (pre post : list Upstream.Part) (others : list Upstream.Candidate).
Variable payload : Upstream.InlineData.
Hypothesis pre_without_inlineData : existsb hasInlineData pre = false.

Lemma extractAudio_responseWith :
  extractAudio voiceName language (responseWith pre payload post others)
  = if negb (truthy (Upstream.data payload))
    then Throw (Error "No audio data found in response")
    else
      let rawAudioBase64 := orDefault (Upstream.data payload) "" in
      let rawMimeType :=
        if truthy (Upstream.mimeType payload)
        then orDefault (Upstream.mimeType payload) ""
        else "audio/L16;rate=24000"%string in
      if includes rawMimeType "L16" || includes rawMimeType "pcm"
      then match pcmToWav rawAudioBase64 with
           | Normal audioBase64 =>
               Normal {| status := 200;
                         body := AudioBody audioBase64 "audio/wav" voiceName language |}
           | Throw e => Throw e
           | Pending => Pending
           end
      else Normal {| status := 200;
                     body := AudioBody rawAudioBase64 rawMimeType voiceName language |}.
Proof.
  unfold extractAudio, responseWith. cbv zeta.
  cbn [firstCandidate candidateParts Upstream.candidates Upstream.content Upstream.parts].
  rewrite (find_first_inlineData pre post payload pre_without_inlineData).
  destruct (negb (truthy (Upstream.data payload))); [reflexivity|].
  destruct (includes _ "L16" || includes _ "pcm"); [|reflexivity].
  destruct (pcmToWav _); reflexivity.
Qed.

(** A raw-PCM payload that fits a WAV file is encoded. *)
Lemma extractAudio_pcm (d m : string) :
  Upstream.data payload = Some d -> d <> ""%string ->
  includes m "L16" || includes m "pcm" = true ->
  (if truthy (Upstream.mimeType payload)
   then orDefault (Upstream.mimeType payload) ""
   else "audio/L16;rate=24000"%string) = m ->
  Z.of_nat (List.length (fromBase64 d)) + 36 <= 4294967295 ->
  exists wav : Buffer,
    pcmToWavBuffer (fromBase64 d) = Normal wav
    /\ extractAudio voiceName language (responseWith pre payload post others)
       = Normal {| status := 200;
                   body := AudioBody (toBase64 wav) "audio/wav" voiceName language |}.
Proof.
  intros Hd Hne Hpcm Hm Hfit.
  pose proof (pcmToWavBuffer_in_range (fromBase64 d) Hfit) as Hwav.
  eexists. split; [exact Hwav|].
  rewrite extractAudio_responseWith. cbv zeta.
  rewrite Hd, (truthy_Some d Hne), Hm, Hpcm. cbn [negb orDefault].
  unfold pcmToWav. cbv zeta. now rewrite Hwav.
Qed.

(** Any other payload is passed through. *)
Lemma extractAudio_passthrough (d m : string) :
  Upstream.data payload = Some d -> d <> ""%string ->
  Upstream.mimeType payload = Some m -> m <> ""%string ->
  includes m "L16" = false -> includes m "pcm" = false ->
  extractAudio voiceName language (responseWith pre payload post others)
  = Normal {| status := 200; body := AudioBody d m voiceName language |}.
Proof.
  intros Hd Hne Hm Hmne H16 Hpcm.
  rewrite extractAudio_responseWith. cbv zeta.
  rewrite Hd, Hm, (truthy_Some d Hne), (truthy_Some m Hmne).
  cbn [negb orDefault]. now rewrite H16, Hpcm.
Qed.

End Extraction.

Lemma extractAudio_status {codec : Base64Codec} (voiceName : JSValue) (language : string)
    (response : Upstream.Response) (r : HttpResponse) :
  extractAudio voiceName language response = Normal r ->
  status r = 200
  /\ exists audioContent mimeType, body r = AudioBody audioContent mimeType voiceName language.
Proof.
  unfold extractAudio. cbv zeta.
  destruct (candidateParts (firstCandidate response)) as [parts|]; [|discriminate].
  destruct (find hasInlineData parts) as [[[inlineData|]]|]; try discriminate.
  destruct (negb (truthy (Upstream.data inlineData))); [discriminate|].
  destruct (includes _ "L16" || includes _ "pcm").
  - destruct (pcmToWav _) as [wav|e|]; cbn [bindC]; [|discriminate|discriminate].
    intros [= <-]. cbn. eauto.
  - cbn [bindC]. intros [= <-]. cbn. eauto.
Qed.

Lemma attemptResult_status {codec : Base64Codec} (upstream : nat -> Outcome)
    (voiceName : JSValue) (language : string) (n : nat) (r : HttpResponse) :
  attemptResult upstream voiceName language n = Normal r ->
  status r = 200
  /\ exists audioContent mimeType, body r = AudioBody audioContent mimeType voiceName language.
Proof.
  unfold attemptResult.
  destruct (upstream n); [apply extractAudio_status | discriminate | discriminate].
Qed.

(** The voice lookup awaits nothing. *)
Lemma resolveVoice_settles (language gender : string) :
  resolveVoice language gender <> Pending.
Proof.
  unfold resolveVoice.
  destruct (Get_VOICE_CONFIG language) as [o|]; [|discriminate].
  unfold Get.
  destruct (findProperty 2 o gender) as [[v| |]|]; discriminate.
Qed.

(** The traces a request can leave: none, one call, or two calls with one
    pause between them. *)
Lemma synthesize_trace {codec : Base64Codec} (upstream : nat -> Outcome)
    (req : NarrationRequest) :
  snd (synthesize upstream req []) = []
  \/ exists s voiceName,
       validRequest req s voiceName
       /\ (snd (synthesize upstream req []) = [callOf req s voiceName]
           \/ snd (synthesize upstream req [])
              = [callOf req s voiceName; Sleep 1000; callOf req s voiceName]).
Proof.
  destruct (truthy (text req)) eqn:Htext.
  2: { left. now rewrite synthesize_no_text. }
  destruct (resolveVoice (languageOf req) (genderOf req)) as [voiceName|e|] eqn:Hvoice.
  2: { left. destruct (synthesize_voice_throws upstream req e Htext Hvoice) as [m ->].
       reflexivity. }
  2: { now elim (resolveVoice_settles _ _ Hvoice). }
  right. destruct (truthy_true _ Htext) as (s & Hs & Hne).
  exists s, voiceName. split; [now repeat split|].
  rewrite (synthesize_valid upstream req s voiceName) by now repeat split.
  cbv zeta.
  destruct (attemptResult upstream voiceName (languageOf req) 0); [now left| |now left].
  right.
  destruct (attemptResult upstream voiceName (languageOf req) 1) as [r|e2|];
    [reflexivity| |reflexivity].
  destruct (message e2); reflexivity.
Qed.

(** When the calls it makes settle, the handler answers: no exception
    leaves it. *)
Lemma synthesize_responds {codec : Base64Codec} (upstream : nat -> Outcome)
    (req : NarrationRequest) :
  upstream 0%nat <> NeverSettles -> upstream 1%nat <> NeverSettles ->
  exists r : HttpResponse, fst (synthesize upstream req []) = Normal r.
Proof.
  intros H0 H1.
  destruct (truthy (text req)) eqn:Htext.
  2: { rewrite synthesize_no_text by exact Htext. eexists; reflexivity. }
  destruct (resolveVoice (languageOf req) (genderOf req)) as [voiceName|e|] eqn:Hvoice.
  2: { destruct (synthesize_voice_throws upstream req e Htext Hvoice) as [m ->].
       eexists; reflexivity. }
  2: { now elim (resolveVoice_settles _ _ Hvoice). }
  destruct (truthy_true _ Htext) as (s & Hs & Hne).
  rewrite (synthesize_valid upstream req s voiceName) by now repeat split.
  cbv zeta.
  destruct (attemptResult upstream voiceName (languageOf req) 0) as [r|e1|] eqn:E1;
    [eexists; reflexivity| |now apply attemptResult_pending in E1].
  destruct (attemptResult upstream voiceName (languageOf req) 1) as [r|e2|] eqn:E2;
    [eexists; reflexivity| |now apply attemptResult_pending in E2].
  destruct (attemptResult_error _ _ _ _ _ E2) as [m ->]. eexists; reflexivity.
Qed.

(** The answer to a valid request when the response [response] arrives,
    on the first attempt or on the second. *)
Lemma synthesize_answer {codec : Base64Codec} (upstream : nat -> Outcome)
    (req : NarrationRequest) (s : string) (voiceName : JSValue)
    (response : Upstream.Response) (answer : HttpResponse) :
  validRequest req s voiceName ->
  extractAudio voiceName (languageOf req) response = Normal answer ->
  answersWith upstream req s voiceName response answer.
Proof.
  intros Hvalid Hextract.
  pose proof (synthesize_valid upstream req s voiceName Hvalid) as E. cbv zeta in E.
  split; [exact Hextract|]. split.
  - intros Hup. unfold attemptResult in E at 1. now rewrite Hup, Hextract in E.
  - intros e1 H1 Hup. rewrite H1 in E. unfold attemptResult in E.
    now rewrite Hup, Hextract in E.
Qed.

(** ** The claims about the handler *)

(** C2 at the input where the code departs from it.  ["constructor"] is
    not a key of the table, yet with gender ["name"] the lookup goes
    through the inherited [constructor] property to the name of the
    [Object] function: the voice is ["Object"], not ["Aoede"]; it is the
    voice sent upstream and returned to the client. *)
Theorem resolveVoice_inherited_property :
  lookup "constructor" VOICE_CONFIG = None
  /\ resolveVoice "constructor" "name" = Normal (JSString "Object")
  /\ forall codec : Base64Codec,
       synthesize (fun _ => Resolves (responseWith [] mp3Payload [] []))
         {| text := Some "hola"; gender := Some "name";
            contentLanguage := Some "constructor" |} []
       = (Normal {| status := 200;
                    body := AudioBody "SUQz" "audio/mpeg" (JSString "Object") "constructor" |},
          [ GenerateContent
              (generateContentParams
                 "Speak in a soft whisper, very slow rhythm, long pauses between phrases, and a warm tone like ASMR: hola"
                 (JSString "Object"))
              300000 ]).
Proof.
  repeat split.
Qed.

(** Validation of a request that has a body: when its text is absent or
    empty it is answered 400 with an error body and leaves the trace as it
    was, so no call is made; a trace with a call in it comes from a
    request whose text is a non-empty string. *)
Theorem text_required {codec : Base64Codec} (upstream : nat -> Outcome)
    (req : NarrationRequest) :
  (text req = None \/ text req = Some ""%string ->
   forall trace : list Event,
     synthesize upstream req trace
     = (Normal {| status := 400; body := ErrorBody "Text is required" |}, trace))
  /\ (calls (snd (synthesize upstream req [])) <> [] ->
      exists s : string, text req = Some s /\ s <> ""%string).
Proof.
  split.
  - intros H trace. apply synthesize_no_text. now destruct H as [-> | ->].
  - intros H. destruct (truthy (text req)) eqn:Htext.
    + now apply truthy_true.
    + rewrite synthesize_no_text in H by exact Htext. now elim H.
Qed.

Lemma text_required_witness :
  synthesize (codec := RFC4648.codec) (failsOnce (responseWith [] pcmPayload [] []))
    {| text := Some ""; gender := None; contentLanguage := None |} []
  = (Normal {| status := 400; body := ErrorBody "Text is required" |}, [])
  /\ exists s : string, text sampleRequest = Some s /\ s <> ""%string.
Proof.
  split.
  - apply (proj1 (text_required (codec := RFC4648.codec) _ _)). now right.
  - apply (proj2 (text_required (codec := RFC4648.codec)
                    (failsOnce (responseWith [] pcmPayload [] [])) sampleRequest)).
    vm_compute. discriminate.
Defined.

(** C3 at the input where the code departs from it.  A request without a
    body has no text, yet it is not answered 400: the destructuring of
    [req.body] throws inside the [try], and the [catch] answers 500 with
    the message of that exception.  No call is made, as for a request
    whose body lacks the text, which is answered 400; and a trace with a
    call in it comes from a request that has a body with a non-empty
    text. *)
Theorem missing_body_answered_500 {codec : Base64Codec} (upstream : nat -> Outcome) :
  synthesize upstream BodyUndefined []
  = (Normal {| status := 500;
               body := ErrorBody
                         "Cannot destructure property 'text' of 'req.body' as it is undefined." |},
     [])
  /\ (forall (req : NarrationRequest) (trace : list Event),
        text req = None \/ text req = Some ""%string ->
        synthesize upstream req trace
        = (Normal {| status := 400; body := ErrorBody "Text is required" |}, trace))
  /\ (forall reqBody : RequestBody,
        calls (snd (synthesize upstream reqBody [])) <> [] ->
        exists (req : NarrationRequest) (s : string),
          reqBody = BodyObject req /\ text req = Some s /\ s <> ""%string).
Proof.
  split; [reflexivity|]. split.
  - intros req trace H. apply synthesize_no_text. now destruct H as [-> | ->].
  - intros [|req] H.
    + rewrite synthesize_no_body in H. now elim H.
    + destruct (truthy (text req)) eqn:Htext.
      * destruct (truthy_true _ Htext) as (s & Hs & Hne). now exists req, s.
      * rewrite synthesize_no_text in H by exact Htext. now elim H.
Qed.



(** C5.  For every response with an inline audio payload, on whichever
    attempt the handler receives it: when the declared MIME type contains
    ["L16"], the handler answers 200 with the payload run through
    [pcmToWav] and the type ["audio/wav"]; when the declared type contains
    neither ["L16"] nor ["pcm"], it answers 200 with the payload and its
    type as they came. *)
Theorem mime_handling {codec : Base64Codec} (upstream : nat -> Outcome)
    (req : NarrationRequest) (s : string) (voiceName : JSValue)
    (pre post : list Upstream.Part) (others : list Upstream.Candidate)
    (payload : Upstream.InlineData) (d m : string) :
  validRequest req s voiceName ->
  existsb hasInlineData pre = false ->
  Upstream.data payload = Some d -> d <> ""%string ->
  Upstream.mimeType payload = Some m -> m <> ""%string ->
  (includes m "L16" = true ->
   Z.of_nat (List.length (fromBase64 d)) + 36 <= 4294967295 ->
   exists wav : Buffer,
     pcmToWavBuffer (fromBase64 d) = Normal wav
     /\ pcmToWav d = Normal (toBase64 wav)
     /\ answersWith upstream req s voiceName (responseWith pre payload post others)
          {| status := 200;
             body := AudioBody (toBase64 wav) "audio/wav" voiceName (languageOf req) |})
  /\ (includes m "L16" = false -> includes m "pcm" = false ->
      answersWith upstream req s voiceName (responseWith pre payload post others)
        {| status := 200; body := AudioBody d m voiceName (languageOf req) |}).
Proof.
  intros Hvalid Hpre Hd Hne Hm Hmne.
  split.
  - intros H16 Hfit.
    destruct (extractAudio_pcm voiceName (languageOf req) pre post others payload Hpre d m)
      as (wav & Hwav & Hextract); auto.
    + now rewrite H16.
    + now rewrite Hm, (truthy_Some m Hmne).
    + exists wav. split; [exact Hwav|]. split.
      * unfold pcmToWav. cbv zeta. now rewrite Hwav.
      * now apply synthesize_answer.
  - intros H16 Hpcm. apply synthesize_answer; [exact Hvalid|].
    now apply extractAudio_passthrough.
Qed.

Lemma mime_handling_witness :
  synthesize (codec := RFC4648.codec)
    (failsOnce (responseWith [textPart] pcmPayload [] [])) sampleRequest []
  = (Normal {| status := 200;
               body := AudioBody
                         "UklGRicAAABXQVZFZm10IBAAAAABAAEAwF0AAIC7AAACABAAZGF0YQMAAAABAgM="
                         "audio/wav" (JSString "Sulafat") "es-latam" |},
     [callOf sampleRequest "hola" (JSString "Sulafat"); Sleep 1000;
      callOf sampleRequest "hola" (JSString "Sulafat")])
  /\ synthesize (codec := RFC4648.codec)
       (fun _ => Resolves (responseWith [textPart] mp3Payload [] [])) sampleRequest []
     = (Normal {| status := 200;
                  body := AudioBody "SUQz" "audio/mpeg" (JSString "Sulafat") "es-latam" |},
        [callOf sampleRequest "hola" (JSString "Sulafat")]).
Proof.
  assert (Hvalid : validRequest sampleRequest "hola" (JSString "Sulafat")).
  { repeat split. discriminate. }
  split.
  - destruct (proj1 (mime_handling (codec := RFC4648.codec)
                       (failsOnce (responseWith [textPart] pcmPayload [] []))
                       sampleRequest "hola" (JSString "Sulafat") [textPart] [] [] pcmPayload
                       "AQID" "audio/L16;codec=pcm;rate=24000"
                       Hvalid eq_refl eq_refl ltac:(discriminate) eq_refl
                       ltac:(discriminate))
                eq_refl ltac:(vm_compute; discriminate))
      as (wav & Hwav & _ & _ & _ & Hsecond).
    injection Hwav as <-. exact (Hsecond (Error "fetch failed") eq_refl eq_refl).
  - destruct (proj2 (mime_handling (codec := RFC4648.codec)
                       (fun _ => Resolves (responseWith [textPart] mp3Payload [] []))
                       sampleRequest "hola" (JSString "Sulafat") [textPart] [] [] mp3Payload
                       "SUQz" "audio/mpeg"
                       Hvalid eq_refl eq_refl ltac:(discriminate) eq_refl
                       ltac:(discriminate))
                eq_refl eq_refl)
      as (_ & Hfirst & _).
    exact (Hfirst eq_refl).
Defined.

(** C6.  When both attempts fail, the body of the 500 response carries the
    message of the second attempt's error, rewritten: the connection
    message if it contains ["fetch failed"] or ["ECONNRESET"]; else the
    timeout message if it contains ["timeout"] or ["aborted"]; else the
    message itself. *)
Theorem error_message_rewritten {codec : Base64Codec} (upstream : nat -> Outcome)
    (req : NarrationRequest) (s : string) (voiceName : JSValue) (e1 e2 : Thrown) :
  validRequest req s voiceName ->
  attemptResult upstream voiceName (languageOf req) 0 = Throw e1 ->
  attemptResult upstream voiceName (languageOf req) 1 = Throw e2 ->
  exists m : string,
    message e2 = Normal m
    /\ fst (synthesize upstream req [])
       = Normal {| status := 500; body := ErrorBody (userMessage m) |}
    /\ (includes m "fetch failed" = true \/ includes m "ECONNRESET" = true ->
        userMessage m = "Connection to Gemini API failed. Please try again."%string)
    /\ (includes m "fetch failed" = false -> includes m "ECONNRESET" = false ->
        includes m "timeout" = true \/ includes m "aborted" = true ->
        userMessage m = "Request timed out. The text might be too long."%string)
    /\ (includes m "fetch failed" = false -> includes m "ECONNRESET" = false ->
        includes m "timeout" = false -> includes m "aborted" = false ->
        userMessage m = m).
Proof.
  intros Hvalid H1 H2.
  destruct (attemptResult_error _ _ _ _ _ H2) as [m Hm].
  exists m. split; [exact Hm|]. split.
  - rewrite (synthesize_valid upstream req s voiceName Hvalid). cbv zeta.
    now rewrite H1, H2, Hm.
  - unfold userMessage. repeat split.
    + intros [-> | ->]; [reflexivity|]. now rewrite orb_true_r.
    + intros -> -> [-> | ->]; [reflexivity|]. cbn [orb]. now rewrite orb_true_r.
    + now intros -> -> -> ->.
Qed.

Lemma error_message_rewritten_witness :
  fst (synthesize (codec := RFC4648.codec) (fun _ => Rejects "socket hang up: aborted")
         sampleRequest [])
  = Normal {| status := 500;
              body := ErrorBody "Request timed out. The text might be too long." |}.
Proof.
  destruct (error_message_rewritten (codec := RFC4648.codec)
              (fun _ => Rejects "socket hang up: aborted") sampleRequest "hola"
              (JSString "Sulafat") (Error "socket hang up: aborted")
              (Error "socket hang up: aborted")
              ltac:(repeat split; discriminate) eq_refl eq_refl)
    as (m & Hm & Hresult & _ & Htimeout & _).
  injection Hm as <-. rewrite Hresult.
  rewrite Htimeout; [reflexivity | reflexivity | reflexivity | now right].
Defined.

(** C7.  A valid request makes a call, and every call a request makes
    carries the model, one text part, the audio modality and the voice and
    nothing else; its text is the style phrase of the language (the
    Spanish one for ["es-latam"], the English one for any other), a space,
    and the text of the request. *)
Theorem style_prefix {codec : Base64Codec} (upstream : nat -> Outcome)
    (req : NarrationRequest) :
  (forall s voiceName, validRequest req s voiceName ->
     In (callOf req s voiceName) (snd (synthesize upstream req [])))
  /\ (forall params timeoutMs,
        In (GenerateContent params timeoutMs) (snd (synthesize upstream req [])) ->
        exists s voiceName phrase,
          validRequest req s voiceName
          /\ phrase = stylePrompt (languageOf req)
          /\ phrase
             = (if String.eqb (languageOf req) "es-latam"
                then "Habla en un susurro suave y cercano, con un ritmo muy lento, pausas prolongadas entre frases y un tono cálido tipo ASMR:"
                else "Speak in a soft whisper, very slow rhythm, long pauses between phrases, and a warm tone like ASMR:")%string
          /\ params
             = {| Outbound.model := TTS_MODEL;
                  Outbound.contents :=
                    [ {| Outbound.parts :=
                           [ {| Outbound.text := (phrase ++ " " ++ s)%string |} ] |} ];
                  Outbound.config :=
                    {| Outbound.responseModalities := [ "AUDIO"%string ];
                       Outbound.speechConfig :=
                         {| Outbound.voiceConfig :=
                              {| Outbound.prebuiltVoiceConfig :=
                                   {| Outbound.voiceName := voiceName |} |} |} |} |}).
Proof.
  split.
  - intros s voiceName Hvalid.
    rewrite (synthesize_valid upstream req s voiceName Hvalid). cbv zeta.
    destruct (attemptResult upstream voiceName (languageOf req) 0);
      [now left| |now left].
    destruct (attemptResult upstream voiceName (languageOf req) 1) as [r|e2|];
      [now left| |now left].
    destruct (message e2); now left.
  - intros params timeoutMs Hin.
    destruct (synthesize_trace upstream req) as [E | (s & voiceName & Hvalid & E)].
    + rewrite E in Hin. contradiction.
    + exists s, voiceName, (stylePrompt (languageOf req)).
      split; [exact Hvalid|]. split; [reflexivity|]. split; [reflexivity|].
      assert (Hcall : GenerateContent params timeoutMs = callOf req s voiceName).
      { destruct E as [E | E]; rewrite E in Hin; cbn [In] in Hin;
          intuition (try discriminate; congruence). }
      now injection Hcall as -> _.
Qed.

Lemma style_prefix_witness :
  In (GenerateContent
        (generateContentParams
           "Habla en un susurro suave y cercano, con un ritmo muy lento, pausas prolongadas entre frases y un tono cálido tipo ASMR: hola"
           (JSString "Sulafat"))
        300000)
     (snd (synthesize (codec := RFC4648.codec)
             (fun _ => Resolves (responseWith [] mp3Payload [] [])) sampleRequest [])).
Proof.
  apply (proj1 (style_prefix (codec := RFC4648.codec)
                  (fun _ => Resolves (responseWith [] mp3Payload [] [])) sampleRequest)
           "hola" (JSString "Sulafat")).
  repeat split. discriminate.
Defined.

(** C9.  When the payload has data and no MIME type (the field is absent,
    or is the empty string, which the code does not tell apart), the type
    is taken to be ["audio/L16;rate=24000"]: on whichever attempt the
    response arrives, the payload is run through [pcmToWav] and answered
    as ["audio/wav"]. *)
Theorem mime_default {codec : Base64Codec} (upstream : nat -> Outcome)
    (req : NarrationRequest) (s : string) (voiceName : JSValue)
    (pre post : list Upstream.Part) (others : list Upstream.Candidate)
    (payload : Upstream.InlineData) (d : string) :
  validRequest req s voiceName ->
  existsb hasInlineData pre = false ->
  Upstream.data payload = Some d -> d <> ""%string ->
  Upstream.mimeType payload = None \/ Upstream.mimeType payload = Some ""%string ->
  Z.of_nat (List.length (fromBase64 d)) + 36 <= 4294967295 ->
  exists wav : Buffer,
    pcmToWavBuffer (fromBase64 d) = Normal wav
    /\ pcmToWav d = Normal (toBase64 wav)
    /\ answersWith upstream req s voiceName (responseWith pre payload post others)
         {| status := 200;
            body := AudioBody (toBase64 wav) "audio/wav" voiceName (languageOf req) |}.
Proof.
  intros Hvalid Hpre Hd Hne Hm Hfit.
  destruct (extractAudio_pcm voiceName (languageOf req) pre post others payload Hpre d
              "audio/L16;rate=24000")
    as (wav & Hwav & Hextract); auto.
  - now destruct Hm as [-> | ->].
  - exists wav. split; [exact Hwav|]. split.
    + unfold pcmToWav. cbv zeta. now rewrite Hwav.
    + now apply synthesize_answer.
Qed.

Lemma mime_default_witness :
  synthesize (codec := RFC4648.codec)
    (failsOnce (responseWith [] untypedPayload [] [])) sampleRequest []
  = (Normal {| status := 200;
               body := AudioBody
                         "UklGRicAAABXQVZFZm10IBAAAAABAAEAwF0AAIC7AAACABAAZGF0YQMAAAABAgM="
                         "audio/wav" (JSString "Sulafat") "es-latam" |},
     [callOf sampleRequest "hola" (JSString "Sulafat"); Sleep 1000;
      callOf sampleRequest "hola" (JSString "Sulafat")]).
Proof.
  destruct (mime_default (codec := RFC4648.codec)
              (failsOnce (responseWith [] untypedPayload [] []))
              sampleRequest "hola" (JSString "Sulafat") [] [] [] untypedPayload "AQID"
              ltac:(repeat split; discriminate) eq_refl eq_refl
              ltac:(discriminate) (or_introl eq_refl) ltac:(vm_compute; discriminate))
    as (wav & Hwav & _ & _ & _ & Hsecond).
  injection Hwav as <-. exact (Hsecond (Error "fetch failed") eq_refl eq_refl).
Defined.



(** * Further properties of the code *)

(** ** The encoder *)

Lemma wav_header_prefix (dataSize : Z) (pcm : Buffer) :
  firstn 44 (wavHeader dataSize ++ pcm) = wavHeader dataSize.
Proof.
  change 44%nat with (List.length (wavHeader dataSize)).
  rewrite firstn_app, Nat.sub_diag, firstn_all. cbn [firstn]. apply app_nil_r.
Qed.

Lemma wav_slice_header (dataSize : Z) (pcm : Buffer) (start stop : nat) :
  (stop <= 44)%nat ->
  Buffer.slice (wavHeader dataSize ++ pcm) start stop
  = Buffer.slice (wavHeader dataSize) start stop.
Proof.
  intros H. unfold Buffer.slice.
  rewrite skipn_app, firstn_app, length_skipn, wavHeader_length.
  replace (stop - start - (44 - start))%nat with 0%nat by lia.
  cbn [firstn]. apply app_nil_r.
Qed.

(** X1.  The four chunk markers of a WAV file are where a decoder looks for
    them, whatever the samples. *)
Theorem wav_magic_markers (pcm wav : Buffer) :
  pcmToWavBuffer pcm = Normal wav ->
  Buffer.slice wav 0 4 = list_byte_of_string "RIFF"
  /\ Buffer.slice wav 8 12 = list_byte_of_string "WAVE"
  /\ Buffer.slice wav 12 16 = list_byte_of_string "fmt "
  /\ Buffer.slice wav 36 40 = list_byte_of_string "data".
Proof.
  intros E. apply pcmToWavBuffer_Normal in E as [_ ->].
  repeat split; (rewrite wav_slice_header by lia); reflexivity.
Qed.

Lemma wav_magic_markers_witness :
  pcmToWavBuffer [xff; x00; x7f] = Normal (wavHeader 3 ++ [xff; x00; x7f])
  /\ Buffer.slice (wavHeader 3 ++ [xff; x00; x7f]) 0 4 = list_byte_of_string "RIFF"
  /\ Buffer.slice (wavHeader 3 ++ [xff; x00; x7f]) 36 40 = list_byte_of_string "data".
Proof.
  split; [reflexivity|].
  pose proof (wav_magic_markers [xff; x00; x7f] (wavHeader 3 ++ [xff; x00; x7f]) eq_refl)
    as (Hriff & _ & _ & Hdata).
  split; [exact Hriff | exact Hdata].
Defined.

(** X2.  The header depends on the samples through their number only: two
    inputs get the same 44 bytes exactly when they have the same length. *)
Theorem wav_header_by_length (pcm1 pcm2 wav1 wav2 : Buffer) :
  pcmToWavBuffer pcm1 = Normal wav1 ->
  pcmToWavBuffer pcm2 = Normal wav2 ->
  (firstn 44 wav1 = firstn 44 wav2 <-> List.length pcm1 = List.length pcm2).
Proof.
  intros E1 E2.
  apply pcmToWavBuffer_Normal in E1 as [H1 ->].
  apply pcmToWavBuffer_Normal in E2 as [H2 ->].
  rewrite !wav_header_prefix. split.
  - intros Hh.
    assert (Hf : Buffer.le_value (Buffer.slice (wavHeader (Z.of_nat (List.length pcm1))) 40 44)
                 = Buffer.le_value (Buffer.slice (wavHeader (Z.of_nat (List.length pcm2))) 40 44))
      by now rewrite Hh.
    change (Buffer.le_value (Buffer.le_bytes 4 (Z.of_nat (List.length pcm1)))
            = Buffer.le_value (Buffer.le_bytes 4 (Z.of_nat (List.length pcm2)))) in Hf.
    rewrite !le_value_le_bytes_32 in Hf by lia. lia.
  - now intros ->.
Qed.

Lemma wav_header_by_length_witness :
  firstn 44 (wavHeader 2 ++ [x01; x02]) = firstn 44 (wavHeader 2 ++ [xff; xfe]).
Proof.
  apply (proj2 (wav_header_by_length [x01; x02] [xff; xfe]
                  (wavHeader 2 ++ [x01; x02]) (wavHeader 2 ++ [xff; xfe]) eq_refl eq_refl)).
  reflexivity.
Defined.

(** X3.  The encoder has one way to fail: it returns a buffer when the sizes
    fit the 32-bit fields of the header, and otherwise throws the range
    error of the first size it writes, before any sample is copied. *)
Theorem pcmToWav_fits_or_throws {codec : Base64Codec} (pcmBase64 : string) :
  (Z.of_nat (List.length (fromBase64 pcmBase64)) + 36 <= 4294967295 ->
   exists wav : Buffer,
     pcmToWav pcmBase64 = Normal (toBase64 wav)
     /\ List.length wav = (List.length (fromBase64 pcmBase64) + 44)%nat)
  /\ (4294967295 < Z.of_nat (List.length (fromBase64 pcmBase64)) + 36 ->
      pcmToWav pcmBase64 = Throw (RangeError "ERR_OUT_OF_RANGE: value"))
  /\ (forall e, pcmToWav pcmBase64 = Throw e ->
        4294967295 < Z.of_nat (List.length (fromBase64 pcmBase64)) + 36).
Proof.
  unfold pcmToWav. cbv zeta. set (pcm := fromBase64 pcmBase64).
  split; [|split].
  - intros H. rewrite (pcmToWavBuffer_in_range pcm H). cbn [bindC].
    eexists. split; [reflexivity | apply wav_length].
  - intros H. now rewrite pcmToWavBuffer_out_of_range.
  - intros e.
    destruct (Z_le_gt_dec (Z.of_nat (List.length pcm) + 36) 4294967295) as [H|H]; [|lia].
    rewrite (pcmToWavBuffer_in_range pcm H). discriminate.
Qed.

Lemma pcmToWav_fits_or_throws_witness :
  exists wav : Buffer,
    pcmToWav (codec := RFC4648.codec) "AQID" = Normal (RFC4648.encode wav)
    /\ List.length wav = 47%nat.
Proof.
  apply (proj1 (pcmToWav_fits_or_throws (codec := RFC4648.codec) "AQID")).
  vm_compute. discriminate.
Defined.

(** ** Voice resolution *)

Ltac split_eqb :=
  repeat match goal with
         | |- context [String.eqb ?a ?b] => destruct (String.eqb a b) eqn:?
         end.

(** What [Object.prototype] holds under a key: nothing, the [Object]
    function, the prototype accessor, or a method named by the key. *)
Lemma Object_prototype_cases (key : string) :
  Object_prototype key = None
  \/ Object_prototype key = Some (Data (JSBuiltin ObjectConstructor))
  \/ Object_prototype key = Some ProtoAccessor
  \/ exists arity, Object_prototype key = Some (Data (JSBuiltin (BuiltinFunction key arity))).
Proof.
  unfold Object_prototype, method. cbn [lookup].
  split_eqb; eauto 6.
Qed.

Lemma lookup_VOICE_CONFIG (language : string) :
  (language = "es-latam"%string
   /\ lookup language VOICE_CONFIG
      = Some [ ("male", "Sulafat"); ("female", "Achernar"); ("neutral", "Aoede") ]%string)
  \/ (language = "en"%string
      /\ lookup language VOICE_CONFIG
         = Some [ ("male", "Sulafat"); ("female", "Vindemiatrix");
                  ("neutral", "Enceladus") ]%string)
  \/ (language <> "es-latam"%string /\ language <> "en"%string
      /\ lookup language VOICE_CONFIG = None).
Proof.
  unfold VOICE_CONFIG. cbn [lookup].
  destruct (String.eqb_spec "es-latam" language) as [<- | H1]; [now left|].
  destruct (String.eqb_spec "en" language) as [<- | H2]; [right; now left|].
  right; right. repeat split; congruence.
Qed.

(** The objects a lookup in the table can return. *)
Lemma Get_VOICE_CONFIG_cases (language : string) :
  Get_VOICE_CONFIG language = None
  \/ (exists voices, lookup language VOICE_CONFIG = Some voices
                     /\ Get_VOICE_CONFIG language = Some (Voices voices))
  \/ (lookup language VOICE_CONFIG = None
      /\ exists b, Get_VOICE_CONFIG language = Some (Global b)
                   /\ (b = ObjectConstructor \/ b = ObjectPrototype
                       \/ exists arity, b = BuiltinFunction language arity)).
Proof.
  unfold Get_VOICE_CONFIG.
  destruct (lookup language VOICE_CONFIG) as [voices|]; [right; left; eauto|].
  destruct (Object_prototype_cases language) as [-> | [-> | [-> | [arity ->]]]];
    [now left | right; right; split; eauto 7 ..].
Qed.

(** No inherited object has a property named after a documented gender. *)
Lemma Get_Global_documented_gender (b : Builtin) (gender : string) :
  In gender ["male"; "female"; "neutral"]%string ->
  b = ObjectConstructor \/ b = ObjectPrototype
  \/ (exists name arity, b = BuiltinFunction name arity) ->
  Get (Global b) gender = Normal JSUndefined.
Proof.
  intros Hg Hb. cbn [In] in Hg.
  destruct Hb as [-> | [-> | (name & arity & ->)]];
    destruct Hg as [<- | [<- | [<- | []]]]; reflexivity.
Qed.

Ltac listed := cbn; repeat (first [left; reflexivity | right]).

(** X4.  With a documented gender the voice is a name, and a name that
    [GET /voices] lists and describes, whatever the language; for a
    language that is not a key of the table it is ["Aoede"]. *)
Theorem documented_gender_voice (language gender : string) :
  In gender ["male"; "female"; "neutral"]%string ->
  exists name : string,
    resolveVoice language gender = Normal (JSString name)
    /\ In name (VoiceList.allAvailableVoices listVoices)
    /\ lookup name (VoiceList.descriptions listVoices) <> None
    /\ (lookup language VOICE_CONFIG = None -> name = "Aoede"%string).
Proof.
  intros Hg. unfold resolveVoice.
  destruct (Get_VOICE_CONFIG_cases language)
    as [-> | [(voices & Hown & ->) | (Hown & b & -> & Hb)]].
  - exists "Aoede"%string. cbn [bindC truthyValue].
    split; [reflexivity|]. split; [listed|]. split; [discriminate | reflexivity].
  - destruct (lookup_VOICE_CONFIG language) as [[_ E] | [[_ E] | (_ & _ & E)]];
      rewrite E in Hown; try discriminate; injection Hown as <-;
      cbn [In] in Hg; destruct Hg as [<- | [<- | [<- | []]]];
      eexists; (split; [reflexivity|]); (split; [listed|]);
      (split; [discriminate | intros H; rewrite E in H; discriminate]).
  - rewrite Get_Global_documented_gender; [|exact Hg|].
    + exists "Aoede"%string. cbn [bindC truthyValue].
      split; [reflexivity|]. split; [listed|]. split; [discriminate | reflexivity].
    + destruct Hb as [-> | [-> | [arity ->]]]; eauto.
Qed.

Lemma documented_gender_voice_witness :
  exists name : string,
    resolveVoice "toString" "female" = Normal (JSString name)
    /\ In name (VoiceList.allAvailableVoices listVoices)
    /\ lookup name (VoiceList.descriptions listVoices) <> None
    /\ (lookup "toString" VOICE_CONFIG = None -> name = "Aoede"%string).
Proof.
  apply (documented_gender_voice "toString" "female"). cbn. auto.
Defined.

(** X5.  The fallback as the code has it: a language that names no property of
    the table, own or inherited, resolves to ["Aoede"] for every gender,
    and so does a language of the table with a gender that names no
    property of its entry, own or inherited. *)
Theorem voice_fallback (language gender : string) :
  (lookup language VOICE_CONFIG = None -> Object_prototype language = None ->
   resolveVoice language gender = Normal (JSString "Aoede"))
  /\ (forall voices,
        lookup language VOICE_CONFIG = Some voices ->
        lookup gender voices = None -> Object_prototype gender = None ->
        resolveVoice language gender = Normal (JSString "Aoede")).
Proof.
  split.
  - apply resolveVoice_fallback.
  - intros voices Hown Hg Hinherited.
    unfold resolveVoice, Get_VOICE_CONFIG. rewrite Hown.
    unfold Get. cbn [findProperty ownProperty prototypeOf].
    now rewrite Hg, Hinherited.
Qed.

Lemma voice_fallback_witness :
  resolveVoice "fr" "male" = Normal (JSString "Aoede")
  /\ resolveVoice "en" "robot" = Normal (JSString "Aoede").
Proof.
  split.
  - apply (proj1 (voice_fallback "fr" "male")); reflexivity.
  - apply (proj2 (voice_fallback "en" "robot")
             [ ("male", "Sulafat"); ("female", "Vindemiatrix"); ("neutral", "Enceladus") ]%string);
      reflexivity.
Defined.

(** A lookup in an entry of the table never throws and never yields a
    falsy voice. *)
Lemma resolveVoice_documented_language (language gender : string) :
  language = "es-latam"%string \/ language = "en"%string ->
  exists voiceName, resolveVoice language gender = Normal voiceName
                    /\ truthyValue voiceName = true.
Proof.
  intros Hl. unfold resolveVoice.
  assert (exists voices, Get_VOICE_CONFIG language = Some (Voices voices)) as [voices ->]
    by (destruct Hl as [-> | ->]; eexists; reflexivity).
  assert (exists found, Get (Voices voices) gender = Normal found) as [found ->].
  { unfold Get. cbn [findProperty ownProperty prototypeOf].
    destruct (lookup gender voices); [eauto|].
    destruct (Object_prototype_cases gender) as [-> | [-> | [-> | [arity ->]]]]; eauto. }
  cbn [bindC]. destruct (truthyValue found) eqn:E; eauto.
Qed.

(** X6.  A request with a non-empty text and a documented language, or none,
    reaches the upstream service whatever its gender field holds: its
    trace starts with a call. *)
Theorem documented_language_calls {codec : Base64Codec} (upstream : nat -> Outcome)
    (req : NarrationRequest) (s : string) :
  text req = Some s -> s <> ""%string ->
  contentLanguage req = None \/ contentLanguage req = Some "es-latam"%string
  \/ contentLanguage req = Some "en"%string ->
  exists voiceName rest,
    resolveVoice (languageOf req) (genderOf req) = Normal voiceName
    /\ truthyValue voiceName = true
    /\ snd (synthesize upstream req []) = callOf req s voiceName :: rest.
Proof.
  intros Htext Hs Hl.
  destruct (resolveVoice_documented_language (languageOf req) (genderOf req))
    as (voiceName & Hvoice & Htruthy).
  { unfold languageOf. destruct Hl as [-> | [-> | ->]]; cbn; auto. }
  exists voiceName.
  rewrite (synthesize_valid upstream req s voiceName) by now repeat split.
  cbv zeta.
  destruct (attemptResult upstream voiceName (languageOf req) 0);
    [|destruct (attemptResult upstream voiceName (languageOf req) 1) as [r|e2|];
      [|destruct (message e2)|]|];
    eexists; (split; [exact Hvoice | split; [exact Htruthy | reflexivity]]).
Qed.

Lemma documented_language_calls_witness :
  exists voiceName rest,
    resolveVoice "en" "hasOwnProperty" = Normal voiceName
    /\ truthyValue voiceName = true
    /\ snd (synthesize (codec := RFC4648.codec) (fun _ => Rejects "ECONNRESET")
              {| text := Some "hello"; gender := Some "hasOwnProperty";
                 contentLanguage := Some "en" |} [])
       = callOf {| text := Some "hello"; gender := Some "hasOwnProperty";
                   contentLanguage := Some "en" |} "hello" voiceName :: rest.
Proof.
  apply (documented_language_calls (codec := RFC4648.codec) (fun _ => Rejects "ECONNRESET")
           {| text := Some "hello"; gender := Some "hasOwnProperty";
              contentLanguage := Some "en" |} "hello");
    [reflexivity | discriminate | right; right; reflexivity].
Defined.

(** ** The handler *)

Lemma synthesize_voice_throws_with {codec : Base64Codec} (upstream : nat -> Outcome)
    (req : NarrationRequest) (e : Thrown) (m : string) :
  truthy (text req) = true ->
  resolveVoice (languageOf req) (genderOf req) = Throw e ->
  message e = Normal m ->
  synthesize upstream req []
  = (Normal {| status := 500; body := ErrorBody (userMessage m) |}, []).
Proof.
  intros Htext Hvoice Hm. unfold synthesize, tryCatch, bind at 1, lift at 1.
  cbn [destructure]. cbv zeta. rewrite Htext.
  cbn [negb]. unfold bind at 1, lift at 1.
  fold (languageOf req) (genderOf req). rewrite Hvoice.
  unfold bind, lift. now rewrite Hm.
Qed.

Lemma resolveVoice_error (language gender : string) (e : Thrown) :
  resolveVoice language gender = Throw e -> exists m, message e = Normal m.
Proof.
  unfold resolveVoice.
  destruct (Get_VOICE_CONFIG language) as [o|]; [|discriminate].
  unfold Get.
  destruct (findProperty 2 o gender) as [[v| |]|]; try discriminate.
  cbn. intros [= <-]. eexists; reflexivity.
Qed.

(** A valid request is left unanswered exactly when a call it awaits
    never settles. *)
Lemma synthesize_pending {codec : Base64Codec} (upstream : nat -> Outcome)
    (req : NarrationRequest) (s : string) (voiceName : JSValue) :
  validRequest req s voiceName ->
  fst (synthesize upstream req []) = Pending
  <-> (upstream 0%nat = NeverSettles
       \/ ((exists e1, attemptResult upstream voiceName (languageOf req) 0 = Throw e1)
           /\ upstream 1%nat = NeverSettles)).
Proof.
  intros Hvalid.
  rewrite (synthesize_valid upstream req s voiceName Hvalid). cbv zeta.
  rewrite <- !(attemptResult_pending upstream voiceName (languageOf req)).
  destruct (attemptResult upstream voiceName (languageOf req) 0) as [r|e1|] eqn:E1.
  - cbn. split; [discriminate|]. intros [H | [[e H] _]]; discriminate H.
  - destruct (attemptResult upstream voiceName (languageOf req) 1) as [r|e2|] eqn:E2.
    + cbn. split; [discriminate|]. intros [H | [_ H]]; discriminate H.
    + destruct (attemptResult_error _ _ _ _ _ E2) as [m ->]. cbn.
      split; [discriminate|]. intros [H | [_ H]]; discriminate H.
    + cbn. split; [|reflexivity]. intros _. right. split; [eauto | reflexivity].
  - cbn. split; [|reflexivity]. intros _. now left.
Qed.

(** X7.  No exception ever leaves the handler.  A request is left
    unanswered exactly when a call it awaits never settles: the first
    call, or the second after a failed first attempt.  Every answer has
    one of four shapes: 500 with the message of the failed destructuring
    when the request has no body; 400 with the fixed error when the text
    is missing; 200 with audio, the resolved voice and the language of
    the request (["es-latam"] when it names none); 500 with an error
    message otherwise. *)
Theorem response_shape {codec : Base64Codec} (upstream : nat -> Outcome)
    (reqBody : RequestBody) :
  let result := fst (synthesize upstream reqBody []) in
  (forall e : Thrown, result <> Throw e)
  /\ (result = Pending
      <-> exists (req : NarrationRequest) (s : string) (voiceName : JSValue),
            reqBody = BodyObject req
            /\ validRequest req s voiceName
            /\ (upstream 0%nat = NeverSettles
                \/ ((exists e1, attemptResult upstream voiceName (languageOf req) 0
                                = Throw e1)
                    /\ upstream 1%nat = NeverSettles)))
  /\ (forall r : HttpResponse,
        result = Normal r ->
        (reqBody = BodyUndefined
         /\ r = {| status := 500;
                   body := ErrorBody
                             "Cannot destructure property 'text' of 'req.body' as it is undefined." |})
        \/ exists req : NarrationRequest,
             reqBody = BodyObject req
             /\ ((truthy (text req) = false
                  /\ r = {| status := 400; body := ErrorBody "Text is required" |})
                 \/ (truthy (text req) = true
                     /\ status r = 500 /\ exists m, body r = ErrorBody m)
                 \/ (truthy (text req) = true
                     /\ status r = 200
                     /\ exists audioContent mimeType voiceName,
                          resolveVoice (languageOf req) (genderOf req) = Normal voiceName
                          /\ body r
                             = AudioBody audioContent mimeType voiceName (languageOf req)))).
Proof.
  intros result. subst result.
  destruct reqBody as [|req].
  { rewrite synthesize_no_body. cbn [fst]. split; [discriminate|]. split.
    - split; [discriminate|]. intros (req & s & v & Hbody & _). discriminate Hbody.
    - intros r [= <-]. left. now split. }
  destruct (truthy (text req)) eqn:Htext.
  2: { rewrite synthesize_no_text by exact Htext. cbn [fst].
       split; [discriminate|]. split.
       - split; [discriminate|].
         intros (req' & s & v & [= <-] & (Ht & Hs & _) & _).
         rewrite Ht, (truthy_Some s Hs) in Htext. discriminate Htext.
       - intros r [= <-]. right. exists req. split; [reflexivity|]. now left. }
  destruct (resolveVoice (languageOf req) (genderOf req)) as [voiceName|e|] eqn:Hvoice.
  2: { destruct (resolveVoice_error _ _ _ Hvoice) as [m Hm].
       rewrite (synthesize_voice_throws_with upstream req e m Htext Hvoice Hm). cbn [fst].
       split; [discriminate|]. split.
       - split; [discriminate|].
         intros (req' & s & v & [= <-] & (_ & _ & Hv) & _).
         rewrite Hv in Hvoice. discriminate Hvoice.
       - intros r [= <-]. right. exists req. split; [reflexivity|].
         right; left. cbn. eauto. }
  2: { now elim (resolveVoice_settles _ _ Hvoice). }
  destruct (truthy_true _ Htext) as (s & Hs & Hne).
  assert (Hvalid : validRequest req s voiceName) by now repeat split.
  split; [|split].
  - intros e. rewrite (synthesize_valid upstream req s voiceName Hvalid). cbv zeta.
    destruct (attemptResult upstream voiceName (languageOf req) 0); try discriminate.
    destruct (attemptResult upstream voiceName (languageOf req) 1) as [r|e2|] eqn:E2;
      try discriminate.
    destruct (attemptResult_error _ _ _ _ _ E2) as [m ->]. discriminate.
  - rewrite (synthesize_pending upstream req s voiceName Hvalid). split.
    + intros H. exists req, s, voiceName. now repeat split.
    + intros (req' & s' & v' & [= <-] & (_ & _ & Hv) & H).
      rewrite Hvoice in Hv. now injection Hv as <-.
  - intros r. rewrite (synthesize_valid upstream req s voiceName Hvalid). cbv zeta.
    intros Hr. right. exists req. split; [reflexivity|]. right.
    destruct (attemptResult upstream voiceName (languageOf req) 0) as [r0|e1|] eqn:E1.
    + injection Hr as <-. right.
      destruct (attemptResult_status _ _ _ _ _ E1) as (Hst & a & m & Hb). eauto 10.
    + destruct (attemptResult upstream voiceName (languageOf req) 1) as [r1|e2|] eqn:E2.
      * injection Hr as <-. right.
        destruct (attemptResult_status _ _ _ _ _ E2) as (Hst & a & m & Hb). eauto 10.
      * destruct (attemptResult_error _ _ _ _ _ E2) as [m Hm]. rewrite Hm in Hr.
        injection Hr as <-. left. cbn. eauto.
      * discriminate Hr.
    + discriminate Hr.
Qed.

Lemma response_shape_witness :
  fst (synthesize (codec := RFC4648.codec) (fun _ => NeverSettles) sampleRequest [])
  = Pending.
Proof.
  apply (proj2 (proj1 (proj2 (response_shape (codec := RFC4648.codec)
                                (fun _ => NeverSettles) sampleRequest)))).
  exists sampleRequest, "hola"%string, (JSString "Sulafat").
  split; [reflexivity|]. split; [|now left]. repeat split. discriminate.
Defined.

Lemma extractAudio_mime {codec : Base64Codec} (voiceName : JSValue) (language : string)
    (response : Upstream.Response) (r : HttpResponse) (a m : string) (v : JSValue)
    (l : string) :
  extractAudio voiceName language response = Normal r ->
  body r = AudioBody a m v l ->
  includes m "L16" = false /\ includes m "pcm" = false.
Proof.
  unfold extractAudio. cbv zeta.
  destruct (candidateParts (firstCandidate response)) as [parts|]; [|discriminate].
  destruct (find hasInlineData parts) as [[[inlineData|]]|]; try discriminate.
  destruct (negb (truthy (Upstream.data inlineData))); [discriminate|].
  destruct (includes _ "L16" || includes _ "pcm") eqn:Hpcm.
  - destruct (pcmToWav _) as [wav|e|]; cbn [bindC]; [|discriminate|discriminate].
    intros [= <-]. cbn [body]. intros [= _ <- _ _]. split; reflexivity.
  - cbn [bindC]. intros [= <-]. cbn [body]. intros [= _ <- _ _].
    now apply orb_false_elim in Hpcm.
Qed.

(** X8.  The type of an audio answer never names raw PCM: it contains neither
    ["L16"] nor ["pcm"]. *)
Theorem never_raw_pcm_type {codec : Base64Codec} (upstream : nat -> Outcome)
    (reqBody : RequestBody) (r : HttpResponse) (audioContent mimeType : string)
    (voiceName : JSValue) (language : string) :
  fst (synthesize upstream reqBody []) = Normal r ->
  body r = AudioBody audioContent mimeType voiceName language ->
  includes mimeType "L16" = false /\ includes mimeType "pcm" = false.
Proof.
  intros Hr Hb. destruct reqBody as [|req].
  { rewrite synthesize_no_body in Hr. injection Hr as <-. discriminate Hb. }
  destruct (truthy (text req)) eqn:Htext.
  2: { rewrite synthesize_no_text in Hr by exact Htext.
       injection Hr as <-. discriminate Hb. }
  destruct (resolveVoice (languageOf req) (genderOf req)) as [v|e|] eqn:Hvoice.
  2: { destruct (resolveVoice_error _ _ _ Hvoice) as [m Hm].
       rewrite (synthesize_voice_throws_with upstream req e m Htext Hvoice Hm) in Hr.
       injection Hr as <-. discriminate Hb. }
  2: { now elim (resolveVoice_settles _ _ Hvoice). }
  destruct (truthy_true _ Htext) as (s & Hs & Hne).
  rewrite (synthesize_valid upstream req s v) in Hr by now repeat split.
  cbv zeta in Hr.
  assert (Hattempt : forall n r0,
             attemptResult upstream v (languageOf req) n = Normal r0 ->
             body r0 = AudioBody audioContent mimeType voiceName language ->
             includes mimeType "L16" = false /\ includes mimeType "pcm" = false).
  { intros n r0. unfold attemptResult.
    destruct (upstream n) as [response|m|]; try discriminate.
    intros E. exact (extractAudio_mime _ _ _ _ _ _ _ _ E). }
  destruct (attemptResult upstream v (languageOf req) 0) as [r0|e1|] eqn:E0.
  - injection Hr as <-. exact (Hattempt _ _ E0 Hb).
  - destruct (attemptResult upstream v (languageOf req) 1) as [r1|e2|] eqn:E1.
    + injection Hr as <-. exact (Hattempt _ _ E1 Hb).
    + destruct (attemptResult_error _ _ _ _ _ E1) as [m Hm]. rewrite Hm in Hr.
      injection Hr as <-. discriminate Hb.
    + discriminate Hr.
  - discriminate Hr.
Qed.

Lemma never_raw_pcm_type_witness :
  includes "audio/wav" "L16" = false /\ includes "audio/wav" "pcm" = false.
Proof.
  apply (never_raw_pcm_type (codec := RFC4648.codec)
           (fun _ => Resolves (responseWith [] pcmPayload [] [])) sampleRequest
           {| status := 200;
              body := AudioBody
                        "UklGRicAAABXQVZFZm10IBAAAAABAAEAwF0AAIC7AAACABAAZGF0YQMAAAABAgM="
                        "audio/wav" (JSString "Sulafat") "es-latam" |}
           "UklGRicAAABXQVZFZm10IBAAAAABAAEAwF0AAIC7AAACABAAZGF0YQMAAAABAgM="
           "audio/wav" (JSString "Sulafat") "es-latam");
    reflexivity.
Defined.

(** X9.  A declared type that contains ["pcm"] is encoded too, with or
    without ["L16"] in it, on whichever attempt the response arrives. *)
Theorem pcm_type_encoded {codec : Base64Codec} (upstream : nat -> Outcome)
    (req : NarrationRequest) (s : string) (voiceName : JSValue)
    (pre post : list Upstream.Part) (others : list Upstream.Candidate)
    (payload : Upstream.InlineData) (d m : string) :
  validRequest req s voiceName ->
  existsb hasInlineData pre = false ->
  Upstream.data payload = Some d -> d <> ""%string ->
  Upstream.mimeType payload = Some m ->
  includes m "pcm" = true ->
  Z.of_nat (List.length (fromBase64 d)) + 36 <= 4294967295 ->
  exists wav : Buffer,
    pcmToWavBuffer (fromBase64 d) = Normal wav
    /\ answersWith upstream req s voiceName (responseWith pre payload post others)
         {| status := 200;
            body := AudioBody (toBase64 wav) "audio/wav" voiceName (languageOf req) |}.
Proof.
  intros Hvalid Hpre Hd Hne Hm Hpcm Hfit.
  assert (Hmne : m <> ""%string) by (intros ->; discriminate Hpcm).
  destruct (extractAudio_pcm voiceName (languageOf req) pre post others payload Hpre d m)
    as (wav & Hwav & Hextract); auto.
  - rewrite Hpcm. apply orb_true_r.
  - now rewrite Hm, (truthy_Some m Hmne).
  - exists wav. split; [exact Hwav|]. now apply synthesize_answer.
Qed.

Lemma pcm_type_encoded_witness :
  synthesize (codec := RFC4648.codec)
    (failsOnce (responseWith [] rawPcmPayload [] [])) sampleRequest []
  = (Normal {| status := 200;
               body := AudioBody
                         "UklGRicAAABXQVZFZm10IBAAAAABAAEAwF0AAIC7AAACABAAZGF0YQMAAAABAgM="
                         "audio/wav" (JSString "Sulafat") "es-latam" |},
     [callOf sampleRequest "hola" (JSString "Sulafat"); Sleep 1000;
      callOf sampleRequest "hola" (JSString "Sulafat")]).
Proof.
  destruct (pcm_type_encoded (codec := RFC4648.codec)
              (failsOnce (responseWith [] rawPcmPayload [] []))
              sampleRequest "hola" (JSString "Sulafat") [] [] [] rawPcmPayload
              "AQID" "audio/pcm"
              ltac:(repeat split; discriminate) eq_refl eq_refl
              ltac:(discriminate) eq_refl eq_refl ltac:(vm_compute; discriminate))
    as (wav & Hwav & _ & _ & Hsecond).
  injection Hwav as <-. exact (Hsecond (Error "fetch failed") eq_refl eq_refl).
Defined.

(** X10.  When the second attempt fails on the shape of the answer, the 500
    response carries the handler's own message unchanged: neither of the
    two is taken for a connection failure or a timeout. *)
Theorem malformed_answer_message {codec : Base64Codec} (upstream : nat -> Outcome)
    (req : NarrationRequest) (s : string) (voiceName : JSValue) (e1 : Thrown)
    (response : Upstream.Response) :
  validRequest req s voiceName ->
  attemptResult upstream voiceName (languageOf req) 0 = Throw e1 ->
  upstream 1%nat = Resolves response ->
  let call := callOf req s voiceName in
  (candidateParts (firstCandidate response) = None ->
   synthesize upstream req []
   = (Normal {| status := 500; body := ErrorBody "No audio content in response" |},
      [call; Sleep 1000; call]))
  /\ (forall parts,
        candidateParts (firstCandidate response) = Some parts ->
        find hasInlineData parts = None ->
        synthesize upstream req []
        = (Normal {| status := 500; body := ErrorBody "No audio data found in response" |},
           [call; Sleep 1000; call])).
Proof.
  intros Hvalid H1 Hup call.
  pose proof (synthesize_valid upstream req s voiceName Hvalid) as E. cbv zeta in E.
  rewrite H1 in E. unfold attemptResult in E. rewrite Hup in E.
  unfold extractAudio in E. cbv zeta in E.
  split.
  - intros Hparts. rewrite Hparts in E. exact E.
  - intros parts Hparts Hfind. rewrite Hparts, Hfind in E. exact E.
Qed.

Lemma malformed_answer_message_witness :
  synthesize (codec := RFC4648.codec) (fun _ => Resolves noCandidates) sampleRequest []
  = (Normal {| status := 500; body := ErrorBody "No audio content in response" |},
     [callOf sampleRequest "hola" (JSString "Sulafat"); Sleep 1000;
      callOf sampleRequest "hola" (JSString "Sulafat")]).
Proof.
  apply (proj1 (malformed_answer_message (codec := RFC4648.codec)
                  (fun _ => Resolves noCandidates) sampleRequest "hola" (JSString "Sulafat")
                  (Error "No audio content in response") noCandidates
                  ltac:(repeat split; discriminate) eq_refl eq_refl)).
  reflexivity.
Defined.

(** X11.  A request consults the upstream service for its first two outcomes
    at most: two services that agree on them get the same answer and
    leave the same trace. *)
Theorem two_outcomes_decide {codec : Base64Codec} (upstream upstream' : nat -> Outcome)
    (reqBody : RequestBody) :
  upstream 0%nat = upstream' 0%nat ->
  upstream 1%nat = upstream' 1%nat ->
  synthesize upstream reqBody [] = synthesize upstream' reqBody [].
Proof.
  intros H0 H1. destruct reqBody as [|req]; [reflexivity|].
  destruct (truthy (text req)) eqn:Htext.
  2: { now rewrite !synthesize_no_text. }
  destruct (resolveVoice (languageOf req) (genderOf req)) as [voiceName|e|] eqn:Hvoice.
  2: { destruct (resolveVoice_error _ _ _ Hvoice) as [m Hm].
       now rewrite !(synthesize_voice_throws_with _ req e m Htext Hvoice Hm). }
  2: { now elim (resolveVoice_settles _ _ Hvoice). }
  destruct (truthy_true _ Htext) as (s & Hs & Hne).
  rewrite !(synthesize_valid _ req s voiceName) by now repeat split.
  cbv zeta. unfold attemptResult. now rewrite H0, H1.
Qed.

Lemma two_outcomes_decide_witness :
  synthesize (codec := RFC4648.codec) (failsOnce (responseWith [] mp3Payload [] []))
    sampleRequest []
  = synthesize (codec := RFC4648.codec)
      (fun n => match n with
                | 0%nat => Rejects "fetch failed"
                | 1%nat => Resolves (responseWith [] mp3Payload [] [])
                | _ => Rejects "never asked"
                end)
      sampleRequest [].
Proof.
  apply (two_outcomes_decide (codec := RFC4648.codec)); reflexivity.
Defined.

(** X12.  An exception of the voice lookup is answered 500 before any call is
    made. *)
Theorem voice_lookup_throws {codec : Base64Codec} (upstream : nat -> Outcome)
    (req : NarrationRequest) (e : Thrown) :
  truthy (text req) = true ->
  resolveVoice (languageOf req) (genderOf req) = Throw e ->
  exists m : string,
    message e = Normal m
    /\ synthesize upstream req []
       = (Normal {| status := 500; body := ErrorBody (userMessage m) |}, []).
Proof.
  intros Htext Hvoice.
  destruct (resolveVoice_error _ _ _ Hvoice) as [m Hm].
  exists m. split; [exact Hm|].
  exact (synthesize_voice_throws_with upstream req e m Htext Hvoice Hm).
Qed.

Lemma voice_lookup_throws_witness :
  exists m : string,
    synthesize (codec := RFC4648.codec) (fun _ => Rejects "unused")
      {| text := Some "hola"; gender := Some "caller";
         contentLanguage := Some "constructor" |} []
    = (Normal {| status := 500; body := ErrorBody (userMessage m) |}, []).
Proof.
  destruct (voice_lookup_throws (codec := RFC4648.codec) (fun _ => Rejects "unused")
              {| text := Some "hola"; gender := Some "caller";
                 contentLanguage := Some "constructor" |}
              (TypeError "'caller', 'callee', and 'arguments' properties may not be accessed on strict mode functions or the arguments objects for calls to them")
              eq_refl eq_refl)
    as (m & _ & Hresult).
  exists m. exact Hresult.
Defined.

(** ** Messages *)

Lemma prefix_app (sub s : string) :
  prefix sub s = true <-> exists post, s = (sub ++ post)%string.
Proof.
  revert s. induction sub as [|c sub IH]; intros s.
  - split; [intros _; now exists s | intros _; now destruct s].
  - destruct s as [|c' s]; cbn [prefix].
    + split; [discriminate | intros [post H]; discriminate H].
    + destruct (Ascii.ascii_dec c c') as [<- | Hc].
      * rewrite IH. split; intros [post H]; exists post.
        -- cbn. now rewrite H.
        -- cbn in H. now injection H.
      * split; [discriminate|]. intros [post H]. cbn in H. injection H as H _.
        now elim Hc.
Qed.

(** X14.  [includes] is the substring test: it holds exactly when the text is
    some prefix, the searched string, and some rest. *)
Theorem includes_substring (s sub : string) :
  includes s sub = true <-> exists pre post, s = (pre ++ sub ++ post)%string.
Proof.
  induction s as [|c s IH]; cbn [includes].
  - rewrite orb_false_r, prefix_app. split.
    + intros [post H]. now exists ""%string, post.
    + intros (pre & post & H). destruct pre as [|c pre]; [|discriminate H].
      now exists post.
  - rewrite orb_true_iff, prefix_app, IH. split.
    + intros [[post H] | (pre & post & H)].
      * now exists ""%string, post.
      * exists (String c pre), post. cbn. now rewrite H.
    + intros (pre & post & H). destruct pre as [|c' pre].
      * left. now exists post.
      * right. cbn in H. injection H as _ H. now exists pre, post.
Qed.

(** X13.  Rewriting a message twice is rewriting it once: the two fixed
    messages contain none of the four keywords. *)
Theorem userMessage_idempotent (m : string) :
  userMessage (userMessage m) = userMessage m.
Proof.
  unfold userMessage at 2 3.
  destruct (includes m "fetch failed" || includes m "ECONNRESET") eqn:Hc; [reflexivity|].
  destruct (includes m "timeout" || includes m "aborted") eqn:Ht; [reflexivity|].
  unfold userMessage. now rewrite Hc, Ht.
Qed.

(** ** One model for all endpoints *)

(** X15.  The model that [GET /] and [GET /voices] report is the model every
    call of [POST /synthesize] asks for. *)
Theorem reported_model_is_used {codec : Base64Codec} (upstream : nat -> Outcome)
    (reqBody : RequestBody) (params : Outbound.Params) (timeoutMs : Z) :
  In (GenerateContent params timeoutMs) (snd (synthesize upstream reqBody [])) ->
  Outbound.model params = Health.model healthCheck
  /\ Outbound.model params = VoiceList.model listVoices
  /\ timeoutMs = REQUEST_TIMEOUT_MS.
Proof.
  intros Hin. destruct reqBody as [|req].
  { rewrite synthesize_no_body in Hin. contradiction. }
  destruct (synthesize_trace upstream req) as [E | (s & voiceName & _ & E)].
  - rewrite E in Hin. contradiction.
  - assert (Hcall : GenerateContent params timeoutMs = callOf req s voiceName).
    { destruct E as [E | E]; rewrite E in Hin; cbn [In] in Hin;
        intuition (try discriminate; congruence). }
    injection Hcall as -> ->. repeat split.
Qed.

Lemma reported_model_is_used_witness :
  Outbound.model (generateContentParams
                    (stylePrompt "es-latam" ++ " " ++ "hola")%string (JSString "Sulafat"))
  = Health.model healthCheck.
Proof.
  apply (reported_model_is_used (codec := RFC4648.codec)
           (fun _ => Resolves (responseWith [] mp3Payload [] [])) sampleRequest
           (generateContentParams
              (stylePrompt "es-latam" ++ " " ++ "hola")%string (JSString "Sulafat"))
           REQUEST_TIMEOUT_MS).
  left. reflexivity.
Defined.
